(** * Analytica Summarizer API: the [/summarize] endpoint of [main.py]

    A shallow embedding of the request handler [summarize] (lines 69-165 of
    [main.py]) and the properties of its content-resolution and formatting
    pipeline.

    Python values are modelled as follows.
    - [str] is a list of Unicode code points ([pystr := list N]); [len] is the
      list length, so the ellipsis U+2026 and the bullet U+2022 count for one
      character each, as in Python.
    - [bytes] is [list byte].
    - [Optional[T]] is [option T]; truthiness of a string is non-emptiness.
    - Exceptions are an error monad [outcome]. *)

From Stdlib Require Import List NArith ZArith Bool Lia.
From Stdlib Require Import Strings.String Strings.Ascii Strings.Byte.
Import ListNotations.

Set Implicit Arguments.
Local Open Scope N_scope.

(** ** Python strings *)

Definition pystr := list N.

(** ASCII literals of the source, as code points. *)
Fixpoint lit (s : string) : pystr :=
  match s with
  | EmptyString => []
  | String a s' => N_of_ascii a :: lit s'
  end.

Definition ELLIPSIS : N := 0x2026.  (* the character of the literal at line 126 *)
Definition BULLET : N := 0x2022.    (* the first character of lines 141-143 *)
Definition NEWLINE : N := 10.
Definition SPACE : N := 32.
Definition DOT : N := 46.

Definition pystr_eqb (a b : pystr) : bool :=
  if list_eq_dec N.eq_dec a b then true else false.

(** Truthiness of a string, [bool(s)]. *)
Definition truthy (s : pystr) : bool :=
  match s with [] => false | _ :: _ => true end.

(** [x or y] on strings. *)
Definition str_or (x y : pystr) : pystr := if truthy x then x else y.

(** [x or y] where [x : Optional[str]]: [None] is falsy as well. *)
Definition opt_or (x : option pystr) (y : pystr) : pystr :=
  match x with
  | Some s => str_or s y
  | None => y
  end.

(** *** Whitespace: [str.isspace] on one code point

    The characters [str.strip()] and [str.split()] (both without argument)
    treat as whitespace: the ASCII table [_Py_ascii_whitespace] and the
    code points of [_PyUnicode_IsWhitespace]. *)
Definition isspace (c : N) : bool :=
  ((0x09 <=? c) && (c <=? 0x0D)) || ((0x1C <=? c) && (c <=? 0x20))
  || (c =? 0x85) || (c =? 0xA0) || (c =? 0x1680)
  || ((0x2000 <=? c) && (c <=? 0x200A))
  || (c =? 0x2028) || (c =? 0x2029) || (c =? 0x202F) || (c =? 0x205F)
  || (c =? 0x3000).

Fixpoint dropWhile (p : N -> bool) (s : pystr) : pystr :=
  match s with
  | [] => []
  | c :: s' => if p c then dropWhile p s' else s
  end.

Definition lstrip (s : pystr) : pystr := dropWhile isspace s.
Definition rstrip (s : pystr) : pystr := rev (dropWhile isspace (rev s)).

(** [s.strip()] *)
Definition strip (s : pystr) : pystr := rstrip (lstrip s).

(** *** [s.split()]: the maximal runs of non-whitespace characters *)

Definition cons_word (w : pystr) (ws : list pystr) : list pystr :=
  match w with [] => ws | _ :: _ => w :: ws end.

(** [words_aux s] is the (possibly empty) word that starts at the head of [s]
    and the words after it. *)
Fixpoint words_aux (s : pystr) : pystr * list pystr :=
  match s with
  | [] => ([], [])
  | c :: s' =>
      let (w, ws) := words_aux s' in
      if isspace c then ([], cons_word w ws) else (c :: w, ws)
  end.

Definition split_ws (s : pystr) : list pystr :=
  let (w, ws) := words_aux s in cons_word w ws.

(** [sep.join(parts)] *)
Fixpoint join (sep : pystr) (parts : list pystr) : pystr :=
  match parts with
  | [] => []
  | [p] => p
  | p :: ps => p ++ sep ++ join sep ps
  end.

(** *** [s.split(sep)] and [s.split(sep, 1)] for a one-character separator *)

(** The text before the first [sep] and, if there is one, the text after it. *)
Fixpoint cut (sep : N) (s : pystr) : pystr * option pystr :=
  match s with
  | [] => ([], None)
  | c :: s' =>
      if c =? sep then ([], Some s')
      else let (a, b) := cut sep s' in (c :: a, b)
  end.

(** [s.split(sep)]: never an empty list. *)
Fixpoint split_sep (sep : N) (s : pystr) : list pystr :=
  match s with
  | [] => [[]]
  | c :: s' =>
      if c =? sep then [] :: split_sep sep s'
      else match split_sep sep s' with
           | [] => [[c]]
           | p :: ps => (c :: p) :: ps
           end
  end.

(** [s.split(sep, 1)] *)
Definition split_sep1 (sep : N) (s : pystr) : list pystr :=
  match cut sep s with
  | (a, Some b) => [a; b]
  | (a, None) => [a]
  end.

(** [s.startswith(p)] *)
Fixpoint startswith (s p : pystr) : bool :=
  match p, s with
  | [], _ => true
  | _ :: _, [] => false
  | x :: p', c :: s' => (c =? x) && startswith s' p'
  end.

(** [s[:k]], with Python's reading of a negative bound. *)
Definition slice_to (s : pystr) (k : Z) : pystr :=
  if (k <? 0)%Z then firstn (Z.to_nat (Z.max 0 (Z.of_nat (List.length s) + k))) s
  else firstn (Z.to_nat k) s.

(** [len(s)] *)
Definition len (s : pystr) : Z := Z.of_nat (List.length s).

(** *** [bytes.decode("utf-8", errors="ignore")]

    CPython's UTF-8 decoder with the [ignore] handler: a well-formed sequence
    gives its code point; an invalid start byte is dropped; a sequence broken
    at its k-th continuation byte loses the k bytes before it; a sequence cut
    by the end of the data is dropped. No input makes it raise. *)

Definition is_cont (c : N) : bool := (0x80 <=? c) && (c <? 0xC0).
Definition low6 (c : N) : N := N.land c 0x3F.

Fixpoint utf8_decode_ignore (raw : list byte) : pystr :=
  match raw with
  | [] => []
  | b0 :: r1 =>
    let c0 := Byte.to_N b0 in
    if c0 <? 0x80 then c0 :: utf8_decode_ignore r1
    else if c0 <? 0xC2 then utf8_decode_ignore r1
    else if c0 <? 0xE0 then
      match r1 with
      | [] => []
      | b1 :: r2 =>
        let c1 := Byte.to_N b1 in
        if is_cont c1
        then N.lor (N.shiftl (N.land c0 0x1F) 6) (low6 c1) :: utf8_decode_ignore r2
        else utf8_decode_ignore r1
      end
    else if c0 <? 0xF0 then
      match r1 with
      | [] => []
      | b1 :: r2 =>
        let c1 := Byte.to_N b1 in
        if negb (is_cont c1) || (if c1 <? 0xA0 then c0 =? 0xE0 else c0 =? 0xED)
        then utf8_decode_ignore r1
        else match r2 with
             | [] => []
             | b2 :: r3 =>
               let c2 := Byte.to_N b2 in
               if is_cont c2
               then N.lor (N.shiftl (N.land c0 0x0F) 12)
                      (N.lor (N.shiftl (low6 c1) 6) (low6 c2))
                    :: utf8_decode_ignore r3
               else utf8_decode_ignore r2
             end
      end
    else if c0 <? 0xF5 then
      match r1 with
      | [] => []
      | b1 :: r2 =>
        let c1 := Byte.to_N b1 in
        if negb (is_cont c1) || (if c1 <? 0x90 then c0 =? 0xF0 else c0 =? 0xF4)
        then utf8_decode_ignore r1
        else match r2 with
             | [] => []
             | b2 :: r3 =>
               let c2 := Byte.to_N b2 in
               if negb (is_cont c2) then utf8_decode_ignore r2
               else match r3 with
                    | [] => []
                    | b3 :: r4 =>
                      let c3 := Byte.to_N b3 in
                      if is_cont c3
                      then N.lor (N.shiftl (N.land c0 0x07) 18)
                             (N.lor (N.shiftl (low6 c1) 12)
                                (N.lor (N.shiftl (low6 c2) 6) (low6 c3)))
                           :: utf8_decode_ignore r4
                      else utf8_decode_ignore r3
                    end
             end
      end
    else utf8_decode_ignore r1
  end.

(** ** Exceptions *)

Inductive exn : Type :=
| HTTPException (status_code : Z) (detail : pystr)
| IndexError.

Inductive outcome (A : Type) : Type :=
| Return (a : A)
| Raise (e : exn).

Arguments Return {A} a.
Arguments Raise {A} e.

Definition bind {A B} (m : outcome A) (k : A -> outcome B) : outcome B :=
  match m with
  | Return a => k a
  | Raise e => Raise e
  end.

Notation "x <- m ;; k" := (bind m (fun x => k))
  (at level 61, m at next level, right associativity).
Notation "' p <- m ;; k" := (bind m (fun x => let 'p := x in k))
  (at level 61, p pattern, m at next level, right associativity).

(** [l[i]] for [i >= 0] *)
Definition getitem {A} (l : list A) (i : nat) : outcome A :=
  match nth_error l i with
  | Some x => Return x
  | None => Raise IndexError
  end.

(** [d.get(k, default)] on a dict literal, kept as its list of items. *)
Fixpoint dict_get {V} (d : list (pystr * V)) (k : pystr) (default : V) : V :=
  match d with
  | [] => default
  | (k', v) :: d' => if pystr_eqb k' k then v else dict_get d' k default
  end.

(** ** The data of a request *)

(** An upload: its [filename] and what [await file.read()] does, [None] when
    the read raises. *)
Record UploadFile : Type := {
  filename : option pystr;
  read : option (list byte)
}.

(** The parameters of [summarize] (lines 70-80). *)
Record Request : Type := {
  tone : pystr;
  length : pystr;
  language : pystr;
  bullets : bool;
  text : option pystr;
  file : option UploadFile;
  image : option UploadFile;
  authorization : option pystr;
  x_api_key : option pystr
}.

Module SummaryResponse.
(** The response model (lines 19-25). *)
Record t : Type := {
  summary : pystr;
  tone : pystr;
  length : pystr;
  language : pystr;
  bullets : bool;
  used_input : pystr
}.
End SummaryResponse.

(** The local variables of [summarize] at its [return] (line 158). *)
Record Locals : Type := {
  content : pystr;
  used_input : pystr;
  base : pystr;
  cap : Z;
  truncated : pystr;
  tone_prefix : pystr;
  body : pystr;
  lang_label : pystr;
  summary_text : pystr
}.

Definition opt_truthy (x : option pystr) : bool :=
  match x with Some s => truthy s | None => false end.

(** The dict literals of lines 124, 129-134 and 149-154. *)
Definition length_caps : list (pystr * Z) :=
  [(lit "short", 160%Z); (lit "medium", 320%Z); (lit "detailed", 480%Z)].

Definition tone_map : list (pystr * pystr) :=
  [(lit "analytical", lit "Analytical summary:");
   (lit "executive", lit "Executive brief:");
   (lit "neutral", lit "Summary:");
   (lit "technical", lit "Technical digest:")].

Definition lang_map : list (pystr * pystr) :=
  [(lit "en", []); (lit "es", lit " (ES)"); (lit "de", lit " (DE)");
   (lit "fr", lit " (FR)")].

(** [str.lower] on an ASCII code point. *)
Definition ascii_lower (c : N) : N :=
  if (0x41 <=? c) && (c <=? 0x5A) then c + 32 else c.

(** Line 126. *)
Definition truncate (base : pystr) (cap : Z) : pystr :=
  if (len base >? cap)%Z then slice_to base (cap - 1) ++ [ELLIPSIS] else base.

(** The f-string of lines 140-144. *)
Definition bullet_body (first_sentence : pystr) : pystr :=
  [BULLET] ++ lit " Key point 1: " ++ first_sentence ++ [NEWLINE]
  ++ [BULLET] ++ lit " Key point 2: Impact and implications." ++ [NEWLINE]
  ++ [BULLET] ++ lit " Next steps: Actions to take.".

(** The value of [first_sentence] at line 139, given that indexing the split
    at 0 succeeds. *)
Definition first_sentence (truncated : pystr) : pystr :=
  strip (str_or (fst (cut DOT truncated)) truncated).

(** Lines 138-146. *)
Definition make_body (bullets : bool) (truncated : pystr) : outcome pystr :=
  if bullets then
    seg <- getitem (split_sep DOT truncated) 0 ;;
    let first_sentence := strip (str_or seg truncated) in
    Return (bullet_body first_sentence)
  else Return truncated.

(** Lines 101-119: the content and the label of the source it came from. *)
Definition resolve_content (text : option pystr) (file image : option UploadFile)
  : outcome (pystr * pystr) :=
  let used_input : pystr := [] in
  let content := strip (opt_or text []) in
  '(content, used_input) <-
    match file with
    | Some f =>
        if negb (truthy content) then
          match read f with
          | Some raw =>
              Return (utf8_decode_ignore raw,
                      opt_or (filename f) (lit "uploaded file"))
          | None =>
              Raise (HTTPException 400
                       (lit "Could not read uploaded file as text."))
          end
        else Return (content, used_input)
    | None => Return (content, used_input)
    end ;;
  let '(content, used_input) :=
    match image with
    | Some i =>
        if negb (truthy content) then
          let used_input := opt_or (filename i) (lit "uploaded image") in
          (lit "[Image: " ++ used_input ++ lit "]", used_input)
        else (content, used_input)
    | None => (content, used_input)
    end in
  if negb (truthy content) then
    Raise (HTTPException 400
             (lit "No input provided. Submit text, a file, or an image."))
  else Return (content, used_input).

Section Summarizer.

(** [str.lower] outside ASCII follows CPython's Unicode database, which is
    not part of the repository: [unicode_lower before c after] is the
    lowercase of the code point [c >= 128] that stands between [before]
    (nearest character first) and [after]; the context matters for U+03A3
    only. *)
Variable unicode_lower : pystr -> N -> pystr -> pystr.

Fixpoint lower_from (before s : pystr) : pystr :=
  match s with
  | [] => []
  | c :: s' =>
      (if c <? 0x80 then [ascii_lower c] else unicode_lower before c s')
      ++ lower_from (c :: before) s'
  end.

(** [s.lower()] *)
Definition lower (s : pystr) : pystr := lower_from [] s.

(** Lines 94-99: the key is computed and never read afterwards. *)
Definition parse_api_key (authorization x_api_key : option pystr)
  : outcome (option pystr) :=
  api_key <-
    match authorization with
    | Some a =>
        if truthy a && startswith (lower a) (lit "bearer ") then
          p <- getitem (split_sep1 SPACE a) 1 ;;
          Return (Some (strip p))
        else Return None
    | None => Return None
    end ;;
  if negb (opt_truthy api_key) && opt_truthy x_api_key
  then Return x_api_key
  else Return api_key.

(** Line 125. *)
Definition cap_for (length : pystr) : Z :=
  dict_get length_caps (lower length) 160%Z.

(** Line 135. *)
Definition tone_prefix_for (tone : pystr) : pystr :=
  dict_get tone_map (lower tone) (lit "Summary:").

(** Lines 149-154. *)
Definition lang_label_for (language : pystr) : pystr :=
  dict_get lang_map (lower language) [].

(** Lines 94-156: the handler up to its [return]. *)
Definition summarize_locals (req : Request) : outcome Locals :=
  _ <- parse_api_key (authorization req) (x_api_key req) ;;
  '(content, used_input) <-
    resolve_content (text req) (file req) (image req) ;;
  let base := join [SPACE] (split_ws content) in
  let cap := cap_for (length req) in
  let truncated := truncate base cap in
  let tone_prefix := tone_prefix_for (tone req) in
  body <- make_body (bullets req) truncated ;;
  let lang_label := lang_label_for (language req) in
  let summary_text := tone_prefix ++ lang_label ++ [NEWLINE] ++ body in
  Return {| content := content; used_input := used_input; base := base;
            cap := cap; truncated := truncated; tone_prefix := tone_prefix;
            body := body; lang_label := lang_label;
            summary_text := summary_text |}.

(** What the local variables hold when the handler reaches its [return]. *)
Record computed (req : Request) (l : Locals) : Prop := {
  computed_content :
    resolve_content (text req) (file req) (image req)
    = Return (content l, used_input l);
  computed_base : base l = join [SPACE] (split_ws (content l));
  computed_cap : cap l = cap_for (length req);
  computed_truncated : truncated l = truncate (base l) (cap l);
  computed_tone_prefix : tone_prefix l = tone_prefix_for (tone req);
  computed_body :
    body l = if bullets req then bullet_body (first_sentence (truncated l))
             else truncated l;
  computed_lang_label : lang_label l = lang_label_for (language req);
  computed_summary_text :
    summary_text l = tone_prefix l ++ lang_label l ++ [NEWLINE] ++ body l
}.

(** Lines 158-165. *)
Definition respond (req : Request) (l : Locals) : SummaryResponse.t :=
  {| SummaryResponse.summary := summary_text l;
     SummaryResponse.tone := tone req;
     SummaryResponse.length := length req;
     SummaryResponse.language := language req;
     SummaryResponse.bullets := bullets req;
     SummaryResponse.used_input :=
       str_or (used_input l) (if opt_truthy (text req) then lit "text" else []) |}.

Definition summarize (req : Request) : outcome SummaryResponse.t :=
  l <- summarize_locals req ;;
  Return (respond req l).

End Summarizer.

(** The request of a client that sends only the given fields: every other
    parameter at its default (lines 71-79). *)
Definition default_request : Request :=
  {| tone := lit "analytical"; length := lit "short"; language := lit "en";
     bullets := false; text := None; file := None; image := None;
     authorization := None; x_api_key := None |}.

(** [unicode_lower] of an interpreter whose database has no case mapping:
    enough to run the handler on ASCII input, where the database is not
    consulted. *)
Definition lower_ascii_only : pystr -> N -> pystr -> pystr := fun _ c _ => [c].

(** ** The formatter as the specification words it

    "Collapse all runs of whitespace (including newlines) into single
    spaces, trim ends." *)

Fixpoint collapse_runs (in_run : bool) (s : pystr) : pystr :=
  match s with
  | [] => []
  | c :: s' =>
      if isspace c
      then (if in_run then collapse_runs true s' else SPACE :: collapse_runs true s')
      else c :: collapse_runs false s'
  end.

Definition normalize_spec (s : pystr) : pystr := strip (collapse_runs false s).

(** The lines of a text: [s.split("\n")]. *)
Definition lines (s : pystr) : list pystr := split_sep NEWLINE s.

Definition starts_ws (s : pystr) : bool :=
  match s with c :: _ => isspace c | [] => false end.

(** A character of a whitespace-normalized text: a plain space or not
    whitespace at all. *)
Definition plain (c : N) : Prop := c = SPACE \/ isspace c = false.

(** The strings that differ from [k] in the case of ASCII letters only. *)
Definition same_ignoring_case (s k : pystr) : Prop :=
  Forall (fun c => c < 0x80) s /\ map ascii_lower s = k.

(** No code point outside ASCII has a space in its lowercase. *)
Definition no_space_lowering (ul : pystr -> N -> pystr -> pystr) : Prop :=
  forall before c after, 0x80 <= c -> ~ In SPACE (ul before c after).

(** ** The sources of a request, as the handler tries them *)

(** The text field has something left after trimming. *)
Definition text_given (text : option pystr) : bool :=
  truthy (strip (opt_or text [])).

(** Reading the upload raises. *)
Definition file_unreadable (file : option UploadFile) : bool :=
  match file with
  | Some f => match read f with None => true | Some _ => false end
  | None => false
  end.

(** The upload is there, is read, and decodes to a non-empty string. *)
Definition file_yields (file : option UploadFile) : bool :=
  match file with
  | Some f =>
      match read f with
      | Some raw => truthy (utf8_decode_ignore raw)
      | None => false
      end
  | None => false
  end.

Definition present (u : option UploadFile) : bool :=
  match u with Some _ => true | None => false end.

(** No source yields content. *)
Definition no_content (req : Request) : bool :=
  negb (text_given (text req)) && negb (file_yields (file req))
  && negb (present (image req)).

(** The file is read, because the text gave nothing, and the read fails. *)
Definition read_failed (req : Request) : bool :=
  negb (text_given (text req)) && file_unreadable (file req).

(** The label of an upload: [u.filename or fallback]. *)
Definition upload_label (u : option UploadFile) (fallback : pystr) : pystr :=
  match u with
  | Some f => opt_or (filename f) fallback
  | None => []
  end.

(** The decoded bytes of a readable upload. *)
Definition decoded (file : option UploadFile) : pystr :=
  match file with
  | Some f =>
      match read f with
      | Some raw => utf8_decode_ignore raw
      | None => []
      end
  | None => []
  end.

(** Content resolution as the specification orders it: the first source, in
    the order text, file, image, that yields content. *)
Definition resolve_by_priority (text : option pystr)
    (file image : option UploadFile) : outcome (pystr * pystr) :=
  if text_given text then Return (strip (opt_or text []), [])
  else if file_unreadable file then
    Raise (HTTPException 400 (lit "Could not read uploaded file as text."))
  else if file_yields file then
    Return (decoded file, upload_label file (lit "uploaded file"))
  else if present image then
    let name := upload_label image (lit "uploaded image") in
    Return (lit "[Image: " ++ name ++ lit "]", name)
  else
    Raise (HTTPException 400
             (lit "No input provided. Submit text, a file, or an image.")).

(** The label of the source that [resolve_by_priority] takes. *)
Definition source_label (req : Request) : pystr :=
  if text_given (text req) then lit "text"
  else if file_yields (file req) then upload_label (file req) (lit "uploaded file")
  else upload_label (image req) (lit "uploaded image").

Definition is_bad_input {A} (o : outcome A) : bool :=
  match o with
  | Raise (HTTPException 400 _) => true
  | _ => false
  end.

Definition is_return {A} (o : outcome A) : bool :=
  match o with Return _ => true | Raise _ => false end.

(** The same request with other options. *)
Definition with_options (req : Request) (t l g : pystr) : Request :=
  {| tone := t; length := l; language := g; bullets := bullets req;
     text := text req; file := file req; image := image req;
     authorization := authorization req; x_api_key := x_api_key req |}.

(** A lookup [f] that ignores case and defaults silently: a string that
    differs from a key of [table] in letter case only gets the key's value,
    and a string whose lowercase [low s] is no key gets [default]. *)
Definition lookup_spec {V} (low : pystr -> pystr) (f : pystr -> V)
    (table : list (pystr * V)) (default : V) : Prop :=
  (forall s k v, In (k, v) table -> same_ignoring_case s k -> f s = v) /\
  (forall s, ~ In (low s) (map fst table) -> f s = default).

(** ** Requests of the scenarios *)

Definition upload (name : string) (data : list byte) : UploadFile :=
  {| filename := Some (lit name); read := Some data |}.

Definition cat_request : Request :=
  {| tone := tone default_request; length := length default_request;
     language := language default_request; bullets := true;
     text := Some []; file := None; image := Some (upload "cat.png" []);
     authorization := None; x_api_key := None |}.

(** Three hundred characters of text, with and without bullets. *)
Definition long_text : pystr := lit (String.concat "" (repeat "abc"%string 100)).

Definition long_request (b : bool) : Request :=
  {| tone := tone default_request; length := length default_request;
     language := language default_request; bullets := b;
     text := Some long_text; file := None; image := None;
     authorization := None; x_api_key := None |}.

(** A file of two spaces and a newline, and no text. *)
Definition blank_file_request : Request :=
  {| tone := tone default_request; length := length default_request;
     language := lit "fr"; bullets := false;
     text := Some [];
     file := Some (upload "blank.txt" [x20; x20; x0a]%byte);
     image := None; authorization := None; x_api_key := None |}.

(** Text with runs of spaces, newlines and a tab. *)
Definition spaced_request : Request :=
  {| tone := tone default_request; length := lit "Medium";
     language := language default_request; bullets := false;
     text := Some ([SPACE; SPACE] ++ lit "Hello" ++ [SPACE; NEWLINE; NEWLINE; SPACE]
                   ++ lit "world." ++ [9] ++ lit "Bye" ++ [SPACE; NEWLINE]);
     file := None; image := None; authorization := None; x_api_key := None |}.

(** Text that starts with a full stop, bullets on. *)
Definition dotted_request : Request :=
  {| tone := lit "WEIRD"; length := length default_request;
     language := language default_request; bullets := true;
     text := Some (lit ".env files. Keep out"); file := None; image := None;
     authorization := None; x_api_key := None |}.

(** No text and a file of a hundred times "abc". *)
Definition file_request : Request :=
  {| tone := tone default_request; length := length default_request;
     language := language default_request; bullets := false;
     text := Some [];
     file := Some (upload "notes.txt" (List.concat (repeat [x61; x62; x63]%byte 100)));
     image := None; authorization := None; x_api_key := None |}.

Definition hello_request : Request :=
  {| tone := lit "executive"; length := lit "short";
     language := language default_request; bullets := false;
     text := Some (lit "Hello world. This matters."); file := None;
     image := None; authorization := None; x_api_key := None |}.

(** ** Further vocabulary for the handler *)

(** The same request with other headers. *)
Definition with_headers (req : Request) (a x : option pystr) : Request :=
  {| tone := tone req; length := length req; language := language req;
     bullets := bullets req; text := text req; file := file req;
     image := image req; authorization := a; x_api_key := x |}.

(** The same request with the text field set to [s]. *)
Definition with_text (req : Request) (s : pystr) : Request :=
  {| tone := tone req; length := length req; language := language req;
     bullets := bullets req; text := Some s; file := file req;
     image := image req; authorization := authorization req;
     x_api_key := x_api_key req |}.

(** The same request with other uploads. *)
Definition with_uploads (req : Request) (f i : option UploadFile) : Request :=
  {| tone := tone req; length := length req; language := language req;
     bullets := bullets req; text := text req; file := f; image := i;
     authorization := authorization req; x_api_key := x_api_key req |}.

(** A word of [s.split()]: not empty, no whitespace in it. *)
Definition proper_word (w : pystr) : Prop :=
  w <> [] /\ Forall (fun c => isspace c = false) w.

(** Text in which the only whitespace is single spaces between other
    characters: [tidy_from p s] reads [s] after a space or at the start of
    the text ([p = true]) or after another character ([p = false]). *)
Fixpoint tidy_from (p : bool) (s : pystr) : bool :=
  match s with
  | [] => negb p
  | c :: s' =>
      if c =? SPACE then negb p && tidy_from true s'
      else negb (isspace c) && tidy_from false s'
  end.

Definition tidy (s : pystr) : bool :=
  match s with [] => true | _ :: _ => tidy_from true s end.

(** The two [detail] strings of lines 111 and 119. *)
Definition DETAIL_UNREADABLE : pystr :=
  lit "Could not read uploaded file as text.".
Definition DETAIL_NO_INPUT : pystr :=
  lit "No input provided. Submit text, a file, or an image.".

(** ** The diagnostic endpoint [/test] (lines 38-65) *)

(** A value of the response dict: a string or a list of strings. *)
Inductive jvalue : Type :=
| JStr (s : pystr)
| JList (l : list pystr).

(** [d[k] = v] on a dict kept as its list of items, in insertion order: the
    value of an existing key is replaced in place, a new key goes last. *)
Fixpoint dict_set {V} (d : list (pystr * V)) (k : pystr) (v : V)
  : list (pystr * V) :=
  match d with
  | [] => [(k, v)]
  | (k', v') :: d' =>
      if pystr_eqb k' k then (k', v) :: d' else (k', v') :: dict_set d' k v
  end.

(** [d.update(items)] *)
Definition dict_update {V} (d items : list (pystr * V)) : list (pystr * V) :=
  fold_left (fun d kv => dict_set d (fst kv) (snd kv)) items d.

(** The handle [db]: what [db.list_collection_names()] does, [None] when it
    raises. *)
Record Database : Type := {
  list_collection_names : option (list pystr)
}.

(** What [from database import db] does: it raises, or binds [db], which may
    be [None]. *)
Inductive database_import : Type :=
| ImportRaises
| Imported (db : option Database).

Definition CHECK_MARK : N := 0x2705.
Definition CROSS_MARK : N := 0x274C.
Definition WARNING_SIGN : pystr := [0x26A0; 0xFE0F].

(** Lines 44-45: the flag of an environment variable, [v] being what
    [os.getenv] returns. *)
Definition env_flag (v : option pystr) : pystr :=
  if opt_truthy v then CHECK_MARK :: lit " Set" else CROSS_MARK :: lit " Not Set".

Definition test_database (database_url database_name : option pystr)
    (imp : database_import) : list (pystr * jvalue) :=
  let response :=
    [(lit "backend", JStr (CHECK_MARK :: lit " Running"));
     (lit "database", JStr (CROSS_MARK :: lit " Not Used"));
     (lit "database_url", JStr (env_flag database_url));
     (lit "database_name", JStr (env_flag database_name));
     (lit "connection_status", JStr (lit "N/A"));
     (lit "collections", JList [])] in
  match imp with
  | Imported (Some db) =>
      match list_collection_names db with
      | Some collections =>
          dict_update response
            [(lit "database", JStr (CHECK_MARK :: lit " Available"));
             (lit "connection_status", JStr (lit "Connected"));
             (lit "collections", JList (firstn 10 collections))]
      | None =>
          dict_set response (lit "database")
            (JStr (WARNING_SIGN ++ lit " Available but not connected"))
      end
  | Imported None => response
  | ImportRaises => response
  end.

(** The names the database lists, when there is a database and it answers. *)
Definition listed (imp : database_import) : option (list pystr) :=
  match imp with
  | Imported (Some db) => list_collection_names db
  | _ => None
  end.

(** [d[k]], with a string no entry holds for a missing key. *)
Definition field (d : list (pystr * jvalue)) (k : string) : jvalue :=
  dict_get d (lit k) (JStr []).

(** A database that lists twelve collections, and one whose listing
    raises. *)
Definition twelve_names : list pystr :=
  map (fun c => lit "c" ++ [c]) [97; 98; 99; 100; 101; 102; 103; 104; 105; 106; 107; 108].

Definition answering_db : database_import :=
  Imported (Some {| list_collection_names := Some twelve_names |}).

Definition silent_db : database_import :=
  Imported (Some {| list_collection_names := None |}).

(** ** UTF-8, for the decoder of line 108 *)

(** A Unicode scalar value: a code point up to U+10FFFF that is no
    surrogate. *)
Definition is_scalar (c : N) : bool :=
  (c <? 0xD800) || ((0xDFFF <? c) && (c <? 0x110000)).

(** What the decoder keeps of [raw]. *)
Definition decode_ok (raw : list byte) (s : pystr) : Prop :=
  Forall (fun c => is_scalar c = true) s /\ (List.length s <= List.length raw)%nat.

(** The byte of a number below 256. *)
Definition byte_of (n : N) : byte :=
  match Byte.of_N n with Some b => b | None => x00 end.

(** The UTF-8 encoding of a scalar value (RFC 3629), as [str.encode]
    writes it. *)
Definition utf8_encode_char (c : N) : list byte :=
  if c <? 0x80 then [byte_of c]
  else if c <? 0x800 then
    [byte_of (N.lor 0xC0 (N.shiftr c 6)); byte_of (N.lor 0x80 (N.land c 0x3F))]
  else if c <? 0x10000 then
    [byte_of (N.lor 0xE0 (N.shiftr c 12));
     byte_of (N.lor 0x80 (N.land (N.shiftr c 6) 0x3F));
     byte_of (N.lor 0x80 (N.land c 0x3F))]
  else
    [byte_of (N.lor 0xF0 (N.shiftr c 18));
     byte_of (N.lor 0x80 (N.land (N.shiftr c 12) 0x3F));
     byte_of (N.lor 0x80 (N.land (N.shiftr c 6) 0x3F));
     byte_of (N.lor 0x80 (N.land c 0x3F))].

(** [s.encode("utf-8")], the inverse the decoder is measured against (the
    repository does not call it); [None] when it raises, which it does on a
    surrogate. *)
Fixpoint utf8_encode (s : pystr) : option (list byte) :=
  match s with
  | [] => Some []
  | c :: s' =>
      if is_scalar c then
        match utf8_encode s' with
        | Some raw => Some (utf8_encode_char c ++ raw)
        | None => None
        end
      else None
  end.

(** * Properties *)

(** ** Strings *)

Lemma pystr_eqb_eq a b : pystr_eqb a b = true <-> a = b.
Proof.
  unfold pystr_eqb. destruct (list_eq_dec N.eq_dec a b); split; congruence.
Qed.

Lemma truthy_true s : truthy s = true <-> s <> [].
Proof. destruct s; simpl; split; congruence. Qed.

Lemma dropWhile_app_last p a c :
  dropWhile p (a ++ [c]) =
  match dropWhile p a with
  | [] => if p c then [] else [c]
  | _ :: _ => dropWhile p a ++ [c]
  end.
Proof.
  induction a as [|x a IH]; simpl.
  - reflexivity.
  - destruct (p x); [exact IH | reflexivity].
Qed.

(** [rstrip] read from the front of the string. *)
Lemma rstrip_cons c s :
  rstrip (c :: s) =
  match rstrip s with
  | [] => if isspace c then [] else [c]
  | _ :: _ => c :: rstrip s
  end.
Proof.
  unfold rstrip. simpl rev. rewrite dropWhile_app_last.
  destruct (dropWhile isspace (rev s)) as [|y l] eqn:E.
  - simpl. destruct (isspace c); reflexivity.
  - rewrite rev_app_distr. simpl.
    destruct (rev l ++ [y]) eqn:E'; [destruct (rev l); discriminate | reflexivity].
Qed.

Lemma dropWhile_incl p s c : In c (dropWhile p s) -> In c s.
Proof.
  induction s as [|x s IH]; simpl; [tauto|].
  destruct (p x); simpl; tauto.
Qed.

Lemma strip_incl s c : In c (strip s) -> In c s.
Proof.
  unfold strip, rstrip, lstrip. intros H.
  apply in_rev, dropWhile_incl, in_rev in H.
  now apply dropWhile_incl in H.
Qed.

(** ** [" ".join(content.split())] *)

Lemma cons_word_nil ws : cons_word [] ws = ws.
Proof. reflexivity. Qed.

Lemma words_aux_head s :
  match fst (words_aux s) with
  | [] => s = [] \/ starts_ws s = true
  | _ :: _ => starts_ws s = false
  end.
Proof.
  destruct s as [|c s]; cbn [words_aux starts_ws]; [now left|].
  destruct (words_aux s) as [w ws]. destruct (isspace c) eqn:E; cbn [fst]; auto.
Qed.

Lemma words_aux_words s :
  Forall (fun c => isspace c = false) (fst (words_aux s)) /\
  Forall (fun w => w <> [] /\ Forall (fun c => isspace c = false) w)
         (snd (words_aux s)).
Proof.
  induction s as [|c s [IH1 IH2]]; cbn [words_aux]; [split; constructor|].
  destruct (words_aux s) as [w ws]. cbn [fst snd] in *.
  destruct (isspace c) eqn:E; cbn [fst snd]; split; auto.
  destruct w; cbn [cons_word]; auto. constructor; auto. split; [discriminate | assumption].
Qed.

(** Every element of [content.split()] is a non-empty run of characters that
    are not whitespace. *)
Lemma split_ws_words s :
  Forall (fun w => w <> [] /\ Forall (fun c => isspace c = false) w) (split_ws s).
Proof.
  unfold split_ws. pose proof (words_aux_words s) as [H1 H2].
  destruct (words_aux s) as [w ws]. simpl in *.
  destruct w; simpl; auto. constructor; auto. split; [discriminate | assumption].
Qed.

Lemma join_cons sep p q ps :
  join sep (p :: q :: ps) = p ++ sep ++ join sep (q :: ps).
Proof. reflexivity. Qed.

Lemma join_nonempty sep ws :
  ws <> [] -> Forall (fun w : pystr => w <> []) ws -> join sep ws <> [].
Proof.
  destruct ws as [|p ps]; [congruence|]. intros _ H. inversion H; subst.
  destruct ps; simpl; destruct p; simpl; congruence.
Qed.

Lemma lstrip_collapse b s : lstrip (collapse_runs b s) = collapse_runs true s.
Proof.
  revert b. induction s as [|c s IH]; intros b; cbn [collapse_runs]; [reflexivity|].
  destruct (isspace c) eqn:E.
  - destruct b; [apply IH|]. unfold lstrip in *. cbn [dropWhile].
    change (isspace SPACE) with true. apply IH.
  - unfold lstrip. cbn [dropWhile]. now rewrite E.
Qed.

(** The joined words against the collapsed runs, trimmed on the right: after
    a run ([true]) and at the start of the text ([false]). *)
Lemma join_split_collapse s :
  let j := join [SPACE] (split_ws s) in
  rstrip (collapse_runs true s) = j /\
  rstrip (collapse_runs false s) =
    (if starts_ws s then match j with [] => [] | _ :: _ => SPACE :: j end else j).
Proof.
  induction s as [|c s IH]; [now split|].
  cbv zeta in *. unfold split_ws in *.
  pose proof (words_aux_head s) as Hh. pose proof (words_aux_words s) as [_ Hw].
  cbn [words_aux collapse_runs starts_ws].
  destruct (words_aux s) as [w ws] eqn:Ew. cbn [fst snd] in Hh, Hw.
  destruct IH as [IHt IHf].
  destruct (isspace c) eqn:E.
  - rewrite cons_word_nil. split; [exact IHt|].
    rewrite rstrip_cons, IHt. reflexivity.
  - assert (Hcase :
        rstrip (c :: collapse_runs false s) = join [SPACE] (cons_word (c :: w) ws)).
    { rewrite rstrip_cons, IHf, E. destruct w as [|x w].
      - rewrite cons_word_nil in *. destruct ws as [|p ps].
        + cbn [join cons_word]. destruct (starts_ws s); reflexivity.
        + destruct Hh as [Hs | Hs]; [subst s; discriminate Ew | rewrite Hs].
          assert (Hne : join [SPACE] (p :: ps) <> []).
          { apply join_nonempty; [discriminate|].
            eapply Forall_impl; [|exact Hw]. cbv beta. tauto. }
          cbn [cons_word]. rewrite join_cons.
          destruct (join [SPACE] (p :: ps)); [congruence | reflexivity].
      - rewrite Hh. cbn [cons_word].
        destruct ws as [|p ps]; reflexivity. }
    split; exact Hcase.
Qed.

(** The whitespace normalisation of line 122 is the one the specification
    describes. *)
Lemma base_normalize_spec s : join [SPACE] (split_ws s) = normalize_spec s.
Proof.
  unfold normalize_spec, strip. rewrite lstrip_collapse.
  symmetry. apply (join_split_collapse s).
Qed.

Lemma plain_not_newline c : plain c -> c <> NEWLINE.
Proof. intros [H | H] E; rewrite E in H; vm_compute in H; discriminate H. Qed.

Lemma join_plain ws :
  Forall (fun w => w <> [] /\ Forall (fun c => isspace c = false) w) ws ->
  Forall plain (join [SPACE] ws).
Proof.
  induction 1 as [|w ws [_ Hw] Hws IH]; [constructor|].
  assert (Hp : Forall plain w).
  { eapply Forall_impl; [|exact Hw]. intros c Hc. now right. }
  destruct ws as [|q qs]; [exact Hp|].
  rewrite join_cons. apply Forall_app. split; [exact Hp|].
  apply Forall_app. split; [|exact IH]. constructor; [now left | constructor].
Qed.

(** [base] holds plain spaces and characters that are not whitespace. *)
Lemma base_plain s : Forall plain (join [SPACE] (split_ws s)).
Proof. apply join_plain, split_ws_words. Qed.

(** ** Truncation *)

Lemma firstn_incl (n : nat) (s : pystr) c : In c (firstn n s) -> In c s.
Proof.
  intros H. rewrite <- (firstn_skipn n s). apply in_or_app. now left.
Qed.

Lemma slice_to_incl s k c : In c (slice_to s k) -> In c s.
Proof. unfold slice_to. destruct (k <? 0)%Z; apply firstn_incl. Qed.

Lemma slice_to_nonneg s k :
  (0 <= k)%Z -> slice_to s k = firstn (Z.to_nat k) s.
Proof.
  intros H. unfold slice_to. destruct (k <? 0)%Z eqn:E; [lia | reflexivity].
Qed.

Lemma cap_values k :
  let c := dict_get length_caps k 160%Z in
  c = 160%Z \/ c = 320%Z \/ c = 480%Z.
Proof.
  cbv zeta. unfold length_caps. cbn [dict_get].
  repeat match goal with |- context [pystr_eqb ?a ?b] => destruct (pystr_eqb a b) end;
    auto.
Qed.

Lemma truncate_long b c :
  (0 < c)%Z -> (len b > c)%Z ->
  truncate b c = firstn (Z.to_nat (c - 1)) b ++ [ELLIPSIS] /\
  len (truncate b c) = c.
Proof.
  intros Hc Hl. unfold truncate.
  assert (E : (len b >? c)%Z = true) by lia. rewrite E.
  rewrite slice_to_nonneg by lia. split; [reflexivity|].
  unfold len in *. rewrite length_app, length_firstn. cbn [List.length]. lia.
Qed.

Lemma truncate_short b c : (len b <= c)%Z -> truncate b c = b.
Proof.
  intros Hl. unfold truncate.
  assert (E : (len b >? c)%Z = false) by lia. now rewrite E.
Qed.

Lemma truncate_len b c : (0 < c)%Z -> (len (truncate b c) <= c)%Z.
Proof.
  intros Hc. destruct (Z_le_gt_dec (len b) c) as [H | H].
  - now rewrite truncate_short.
  - destruct (truncate_long b Hc H) as [_ ->]. lia.
Qed.

Lemma truncate_incl b c x : In x (truncate b c) -> In x b \/ x = ELLIPSIS.
Proof.
  unfold truncate. destruct (len b >? c)%Z; [|now left].
  intros H. apply in_app_or in H as [H | [H | []]].
  - left. eapply slice_to_incl, H.
  - now right.
Qed.

(** ** Splitting at a character *)

Lemma cut_spec sep s :
  ~ In sep (fst (cut sep s)) /\
  s = fst (cut sep s) ++ match snd (cut sep s) with
                         | Some r => sep :: r
                         | None => []
                         end.
Proof.
  induction s as [|c s [IH1 IH2]]; cbn [cut]; [now split|].
  destruct (c =? sep) eqn:E.
  - apply N.eqb_eq in E. subst c. now split.
  - apply N.eqb_neq in E. destruct (cut sep s) as [a b]. cbn [fst snd] in *.
    split.
    + intros [H | H]; [congruence | tauto].
    + cbn [app]. now rewrite <- IH2.
Qed.

Lemma cut_found sep s :
  In sep s -> exists a b, cut sep s = (a, Some b).
Proof.
  induction s as [|c s IH]; cbn [cut]; [intros []|].
  intros H. destruct (c =? sep) eqn:E; [now eauto|].
  apply N.eqb_neq in E. destruct H as [H | H]; [congruence|].
  destruct (IH H) as (a & b & ->). eauto.
Qed.

Lemma split_sep_cut sep s :
  split_sep sep s =
  fst (cut sep s) :: match snd (cut sep s) with
                     | Some r => split_sep sep r
                     | None => []
                     end.
Proof.
  induction s as [|c s IH]; cbn [split_sep cut]; [reflexivity|].
  destruct (c =? sep); [reflexivity|].
  rewrite IH. destruct (cut sep s) as [a b]. reflexivity.
Qed.

(** [s.split(sep)[0]] never raises. *)
Lemma split_sep_first sep s :
  getitem (split_sep sep s) 0 = Return (fst (cut sep s)).
Proof. rewrite split_sep_cut. reflexivity. Qed.

Lemma cut_incl sep s c : In c (fst (cut sep s)) -> In c s.
Proof.
  intros H. rewrite (proj2 (cut_spec sep s)). apply in_or_app. now left.
Qed.

Lemma cut_app sep a r :
  ~ In sep a -> cut sep (a ++ sep :: r) = (a, Some r).
Proof.
  induction a as [|c a IH]; cbn [app cut]; intros H.
  - now rewrite N.eqb_refl.
  - destruct (c =? sep) eqn:E.
    + apply N.eqb_eq in E. subst c. exfalso. apply H. now left.
    + rewrite IH; [reflexivity|]. intros H'. apply H. now right.
Qed.

Lemma split_sep_app sep a r :
  ~ In sep a -> split_sep sep (a ++ sep :: r) = a :: split_sep sep r.
Proof. intros H. now rewrite split_sep_cut, cut_app. Qed.

Lemma startswith_prefix s p :
  startswith s p = true -> exists r, s = p ++ r.
Proof.
  revert s. induction p as [|x p IH]; intros s; cbn [startswith].
  - now exists s.
  - destruct s as [|c s]; [discriminate|].
    intros H. apply andb_prop in H as [H1 H2]. apply N.eqb_eq in H1. subst c.
    destruct (IH _ H2) as [r ->]. now exists r.
Qed.

(** ** Content resolution (lines 101-119) *)

Ltac resolve_with H :=
  repeat (progress (rewrite ?H; cbn [negb bind])); try reflexivity.

Lemma resolve_text text file image :
  text_given text = true ->
  resolve_content text file image = Return (strip (opt_or text []), []).
Proof.
  unfold text_given, resolve_content. intros H.
  destruct file as [f|], image as [i|]; resolve_with H.
Qed.

Lemma resolve_file text f raw image :
  text_given text = false -> read f = Some raw ->
  truthy (utf8_decode_ignore raw) = true ->
  resolve_content text (Some f) image =
  Return (utf8_decode_ignore raw, opt_or (filename f) (lit "uploaded file")).
Proof.
  unfold text_given, resolve_content. intros H Hr Hd.
  rewrite H, Hr. destruct image as [i|]; resolve_with Hd.
Qed.

Lemma resolve_image text file i :
  text_given text = false -> file_unreadable file = false ->
  file_yields file = false ->
  let name := opt_or (filename i) (lit "uploaded image") in
  resolve_content text file (Some i) =
  Return (lit "[Image: " ++ name ++ lit "]", name).
Proof.
  unfold text_given, resolve_content, file_unreadable, file_yields.
  intros H Hu Hy. cbv zeta. rewrite H.
  destruct file as [f|]; [destruct (read f) as [raw|]; [|discriminate]|];
    resolve_with Hy; resolve_with H.
Qed.

Lemma resolve_read_failed text file image :
  text_given text = false -> file_unreadable file = true ->
  resolve_content text file image =
  Raise (HTTPException 400 (lit "Could not read uploaded file as text.")).
Proof.
  unfold text_given, resolve_content, file_unreadable. intros H Hu.
  rewrite H. cbn [negb].
  destruct file as [f|]; [|discriminate].
  destruct (read f); [discriminate | reflexivity].
Qed.

Lemma resolve_nothing text file :
  text_given text = false -> file_unreadable file = false ->
  file_yields file = false ->
  resolve_content text file None =
  Raise (HTTPException 400
           (lit "No input provided. Submit text, a file, or an image.")).
Proof.
  unfold text_given, resolve_content, file_unreadable, file_yields.
  intros H Hu Hy. rewrite H.
  destruct file as [f|]; [destruct (read f) as [raw|]; [|discriminate]|];
    resolve_with Hy; resolve_with H.
Qed.

(** The content of a resolved request is never empty. *)
Lemma resolve_content_truthy text file image c u :
  resolve_content text file image = Return (c, u) -> truthy c = true.
Proof.
  unfold resolve_content.
  destruct file as [f|];
    [destruct (negb (truthy (strip (opt_or text [])))); [destruct (read f)|]|];
    cbn [bind];
    try discriminate;
    match goal with
    | |- (let '(_, _) := ?m in _) = _ -> _ => destruct m as [c' u'] eqn:E
    end;
    destruct (truthy c') eqn:T; cbn [negb]; intros [= <- <-]; exact T.
Qed.

(** ** The body (lines 138-146) *)

Lemma make_body_returns b t :
  make_body b t = Return (if b then bullet_body (first_sentence t) else t).
Proof.
  unfold make_body. destruct b; [|reflexivity].
  rewrite split_sep_first. reflexivity.
Qed.

Lemma first_sentence_incl t c : In c (first_sentence t) -> In c t.
Proof.
  unfold first_sentence, str_or. intros H. apply strip_incl in H.
  destruct (truthy (fst (cut DOT t))); [eapply cut_incl, H | exact H].
Qed.

(** ** Lower-casing and the option tables *)

Lemma ascii_lower_space c : ascii_lower c = SPACE -> c = SPACE.
Proof.
  unfold ascii_lower, SPACE.
  destruct ((0x41 <=? c) && (c <=? 0x5A)) eqn:E; [|auto].
  apply andb_prop in E as [E1 E2]. apply N.leb_le in E1. lia.
Qed.

Section Handler.

Variable ul : pystr -> N -> pystr -> pystr.

(** On ASCII text [lower] is the letter-wise ASCII lowercase: the Unicode
    database is not consulted. *)
Lemma lower_from_ascii before s :
  Forall (fun c => c < 0x80) s -> lower_from ul before s = map ascii_lower s.
Proof.
  intros H. revert before. induction H as [|c s Hc _ IH]; intros before.
  - reflexivity.
  - cbn [lower_from map]. apply N.ltb_lt in Hc. rewrite Hc, IH. reflexivity.
Qed.

Lemma lower_ignoring_case s k : same_ignoring_case s k -> lower ul s = k.
Proof. intros [H <-]. now apply lower_from_ascii. Qed.

Lemma lower_from_space before s :
  no_space_lowering ul -> In SPACE (lower_from ul before s) -> In SPACE s.
Proof.
  intros Hul. revert before. induction s as [|c s IH]; intros before;
    cbn [lower_from]; [auto|].
  intros H. apply in_app_or in H as [H | H].
  - destruct (c <? 0x80) eqn:E.
    + destruct H as [H | []]. left. now apply ascii_lower_space.
    + apply N.ltb_ge in E. exfalso. exact (Hul before c s E H).
  - right. eapply IH, H.
Qed.

(** Lines 94-99 never raise: a header accepted by the [startswith] test has
    a space, so its split has a second element. *)
Lemma parse_api_key_returns a x :
  no_space_lowering ul -> exists k, parse_api_key ul a x = Return k.
Proof.
  intros Hul. unfold parse_api_key.
  assert (H : exists k,
    match a with
    | Some a0 =>
        if truthy a0 && startswith (lower ul a0) (lit "bearer ")
        then p <- getitem (split_sep1 SPACE a0) 1 ;; Return (Some (strip p))
        else Return None
    | None => Return None
    end = Return k).
  { destruct a as [a0|]; [|now eexists].
    destruct (truthy a0 && startswith (lower ul a0) (lit "bearer ")) eqn:E;
      [|now eexists].
    apply andb_prop in E as [_ E]. apply startswith_prefix in E as [r E].
    assert (Hs : In SPACE a0).
    { apply lower_from_space with (before := []); [exact Hul|].
      fold (lower ul a0). rewrite E. apply in_or_app. left.
      vm_compute. tauto. }
    destruct (cut_found _ _ Hs) as (p & q & Hc).
    unfold split_sep1. rewrite Hc. cbn. now eexists. }
  destruct H as [k ->]. cbn [bind].
  destruct (negb (opt_truthy k) && opt_truthy x); now eexists.
Qed.

(** ** The handler, step by step *)

Lemma summarize_locals_inv req l :
  summarize_locals ul req = Return l -> computed ul req l.
Proof.
  unfold summarize_locals.
  destruct (parse_api_key ul (authorization req) (x_api_key req));
    cbn [bind]; [|discriminate].
  destruct (resolve_content (text req) (file req) (image req)) as [[c u]|] eqn:Hr;
    cbn [bind]; [|discriminate].
  rewrite make_body_returns. cbn [bind].
  intros [= <-]. constructor; try reflexivity. exact Hr.
Qed.

Lemma summarize_locals_returns req c u :
  no_space_lowering ul ->
  resolve_content (text req) (file req) (image req) = Return (c, u) ->
  exists l, summarize_locals ul req = Return l /\ content l = c /\ used_input l = u.
Proof.
  intros Hul Hr. unfold summarize_locals.
  destruct (parse_api_key_returns (authorization req) (x_api_key req) Hul)
    as [k ->].
  cbn [bind]. rewrite Hr. cbn [bind]. rewrite make_body_returns. cbn [bind].
  eexists. split; [reflexivity|]. split; reflexivity.
Qed.

Lemma summarize_locals_raises req e :
  no_space_lowering ul ->
  resolve_content (text req) (file req) (image req) = Raise e ->
  summarize_locals ul req = Raise e.
Proof.
  intros Hul Hr. unfold summarize_locals.
  destruct (parse_api_key_returns (authorization req) (x_api_key req) Hul)
    as [k ->].
  cbn [bind]. now rewrite Hr.
Qed.

Lemma summarize_inv req r :
  summarize ul req = Return r ->
  exists l, summarize_locals ul req = Return l /\ r = respond req l.
Proof.
  unfold summarize. destruct (summarize_locals ul req) as [l|]; cbn [bind];
    [|discriminate].
  intros [= <-]. now exists l.
Qed.

Lemma cap_positive req l : computed ul req l -> (0 < cap l)%Z.
Proof.
  intros H. rewrite (computed_cap H). unfold cap_for.
  pose proof (cap_values (lower ul (length req))) as Hc. cbv zeta in Hc. lia.
Qed.

End Handler.

(** * The claims *)

(** ** Scenario: an image named cat.png, bullets on *)

Lemma cat_request_locals ul :
  summarize_locals ul cat_request =
  Return {| content := lit "[Image: cat.png]";
            used_input := lit "cat.png";
            base := lit "[Image: cat.png]";
            cap := 160%Z;
            truncated := lit "[Image: cat.png]";
            tone_prefix := lit "Analytical summary:";
            body := bullet_body (lit "[Image: cat");
            lang_label := [];
            summary_text :=
              lit "Analytical summary:" ++ [NEWLINE]
              ++ bullet_body (lit "[Image: cat") |}.
Proof. vm_compute. reflexivity. Qed.

(** C1, as stated, fails: whatever the lowercase table, the first body line
    of the cat.png request is not the bullet that quotes the whole
    "[Image: cat.png]". *)
Lemma C1_first_line_is_cut :
  ~ exists ul l,
      summarize_locals ul cat_request = Return l /\
      hd [] (lines (body l)) = BULLET :: lit " Key point 1: [Image: cat.png]".
Proof.
  intros (ul & l & H & Hl). rewrite cat_request_locals in H.
  injection H as <-. vm_compute in Hl. discriminate Hl.
Qed.

(** C1 (amended): for text="", no file, an image named "cat.png" and
    bullets=true, the resolved content is "[Image: cat.png]" and the body has
    exactly three bullet lines; the first one quotes the content up to its
    first "." only: "• Key point 1: [Image: cat". *)
Theorem C1_cat_image_bullets ul :
  exists l,
    summarize_locals ul cat_request = Return l /\
    summarize ul cat_request = Return (respond cat_request l) /\
    content l = lit "[Image: cat.png]" /\
    lines (body l) =
      [BULLET :: lit " Key point 1: [Image: cat";
       BULLET :: lit " Key point 2: Impact and implications.";
       BULLET :: lit " Next steps: Actions to take."].
Proof.
  eexists. split; [apply cat_request_locals|].
  split; [unfold summarize; rewrite cat_request_locals; reflexivity|].
  split; vm_compute; reflexivity.
Qed.

(** ** The length cap *)

Lemma long_request_bullets ul l :
  summarize_locals ul (long_request true) = Return l ->
  cap l = 160%Z /\ len (base l) = 300%Z /\ len (body l) = 246%Z /\
  last (body l) 0 = DOT.
Proof. intros H. vm_compute in H. injection H as <-. vm_compute. auto. Qed.

(** C2, as stated, fails: with bullets=true the 300-character text gives a
    body of 246 characters under a cap of 160, and the body ends with the
    full stop of its last bullet line, not with an ellipsis. *)
Lemma C2_bullets_exceed_cap :
  ~ exists ul l,
      summarize_locals ul (long_request true) = Return l /\
      ((len (body l) <= cap l)%Z \/ last (body l) 0 = ELLIPSIS).
Proof.
  intros (ul & l & H & Hl).
  destruct (long_request_bullets H) as (Hc & _ & Hb & Hd).
  rewrite Hc, Hb, Hd in Hl. destruct Hl as [Hl | Hl]; [lia | discriminate Hl].
Qed.

(** C2 (amended): for every request that succeeds and every [length] value,
    the truncated text is at most [cap] characters long, and it is the body
    when bullets=false; whenever the whitespace-collapsed text is longer than
    [cap], the truncated text is its first [cap - 1] characters followed by
    one ellipsis character, so it ends with the ellipsis and has length
    exactly [cap]. *)
Theorem C2_truncated_within_cap ul req l :
  summarize_locals ul req = Return l ->
  (len (truncated l) <= cap l)%Z /\
  (bullets req = false -> body l = truncated l /\ (len (body l) <= cap l)%Z) /\
  ((len (base l) > cap l)%Z ->
     truncated l = firstn (Z.to_nat (cap l - 1)) (base l) ++ [ELLIPSIS] /\
     last (truncated l) 0 = ELLIPSIS /\
     len (truncated l) = cap l).
Proof.
  intros H. apply summarize_locals_inv in H.
  pose proof (cap_positive H) as Hc.
  assert (Hlen : (len (truncated l) <= cap l)%Z).
  { rewrite (computed_truncated H). now apply truncate_len. }
  split; [exact Hlen|]. split.
  - intros Hb. rewrite (computed_body H), Hb. now split.
  - intros Hl. rewrite (computed_truncated H).
    destruct (truncate_long (base l) Hc Hl) as [Ht Hn].
    split; [exact Ht|]. split; [rewrite Ht; apply last_last | exact Hn].
Qed.

Lemma C2_witness :
  exists l,
    summarize_locals lower_ascii_only (long_request false) = Return l /\
    bullets (long_request false) = false /\
    (len (base l) > cap l)%Z /\
    len (body l) = 160%Z /\
    last (body l) 0 = ELLIPSIS.
Proof.
  eexists. split; [vm_compute; reflexivity|].
  split; [reflexivity|]. split; [vm_compute; reflexivity|].
  match goal with
  | |- context [body ?l] =>
      destruct (@C2_truncated_within_cap lower_ascii_only (long_request false)
                  l eq_refl) as (_ & Hb & Ht)
  end.
  destruct (Hb eq_refl) as [-> _].
  destruct (Ht eq_refl) as (_ & Hlast & Hlen).
  split; [exact Hlen | exact Hlast].
Defined.

(** ** Normalisation and truncation *)

(** C3: the text the handler truncates is the resolved content with every run
    of whitespace collapsed to one space and the ends trimmed; if it is
    longer than [cap], the truncated text is its first [cap - 1] characters
    (exactly that many) followed by one ellipsis; otherwise it is the
    normalized text itself. *)
Theorem C3_normalize_then_truncate ul req l :
  summarize_locals ul req = Return l ->
  let n := normalize_spec (content l) in
  let k := Z.to_nat (cap l - 1) in
  base l = n /\
  ((len n > cap l)%Z ->
     truncated l = firstn k n ++ [ELLIPSIS] /\
     len (firstn k n) = (cap l - 1)%Z) /\
  ((len n <= cap l)%Z -> truncated l = n).
Proof.
  intros H. apply summarize_locals_inv in H. cbv zeta.
  pose proof (cap_positive H) as Hc.
  assert (Hb : base l = normalize_spec (content l)).
  { rewrite (computed_base H). apply base_normalize_spec. }
  rewrite <- Hb. split; [reflexivity|]. split.
  - intros Hl. rewrite (computed_truncated H).
    destruct (truncate_long (base l) Hc Hl) as [Ht _].
    split; [exact Ht|]. unfold len in *. rewrite length_firstn. lia.
  - intros Hl. rewrite (computed_truncated H). now apply truncate_short.
Qed.

Lemma C3_witness :
  (exists l,
     summarize_locals lower_ascii_only (long_request false) = Return l /\
     truncated l = firstn 159 long_text ++ [ELLIPSIS]) /\
  (exists l,
     summarize_locals lower_ascii_only spaced_request = Return l /\
     truncated l = lit "Hello world. Bye").
Proof.
  split; eexists; (split; [vm_compute; reflexivity|]).
  - match goal with
    | |- truncated ?l = _ =>
        destruct (@C3_normalize_then_truncate lower_ascii_only
                    (long_request false) l eq_refl) as (_ & Ht & _)
    end.
    destruct (Ht eq_refl) as [Ht' _]. exact Ht'.
  - match goal with
    | |- truncated ?l = _ =>
        destruct (@C3_normalize_then_truncate lower_ascii_only
                    spaced_request l eq_refl) as (_ & _ & Ht)
    end.
    apply Ht. vm_compute. discriminate.
Defined.

(** ** Failures *)

(** The guarded assignments of lines 101-119 take the first source, in the
    order text, file, image, that yields content. *)
Lemma resolve_content_priority text file image :
  resolve_content text file image = resolve_by_priority text file image.
Proof.
  unfold resolve_by_priority.
  destruct (text_given text) eqn:Ht; [now apply resolve_text|].
  destruct (file_unreadable file) eqn:Hu; [now apply resolve_read_failed|].
  destruct (file_yields file) eqn:Hy.
  - destruct file as [f|]; [|discriminate]. cbn [file_yields decoded upload_label] in *.
    destruct (read f) as [raw|] eqn:Hr; [|discriminate].
    now apply resolve_file.
  - destruct image as [i|]; cbn [present].
    + now apply resolve_image.
    + now apply resolve_nothing.
Qed.

Lemma resolve_by_priority_outcome text file image :
  let o := resolve_by_priority text file image in
  is_bad_input o =
    negb (text_given text)
    && (file_unreadable file || negb (file_yields file) && negb (present image))
  /\ is_return o = negb (is_bad_input o).
Proof.
  cbv zeta. unfold resolve_by_priority.
  destruct (text_given text), (file_unreadable file), (file_yields file),
    (present image); split; reflexivity.
Qed.

Lemma summarize_outcome ul req :
  no_space_lowering ul ->
  let o := resolve_content (text req) (file req) (image req) in
  is_bad_input (summarize ul req) = is_bad_input o /\
  is_return (summarize ul req) = is_return o.
Proof.
  intros Hul. cbv zeta. unfold summarize.
  destruct (resolve_content (text req) (file req) (image req)) as [[c u]|e] eqn:Hr.
  - destruct (summarize_locals_returns req Hul Hr) as (l & -> & _).
    split; reflexivity.
  - rewrite (summarize_locals_raises req Hul Hr). split; reflexivity.
Qed.

Lemma lower_ascii_only_no_space : no_space_lowering lower_ascii_only.
Proof.
  intros before c after Hc [H | []]. unfold SPACE in H. lia.
Qed.

(** C4: provided the lowercase table maps no character to a space (so that
    the header parsing of lines 94-99 cannot raise), summarize fails with
    the 400 error, and returns no response, exactly when no source yields
    content (nothing left of the text after trimming, no file that decodes to
    a non-empty string, no image) or the file, read because the text gave
    nothing, could not be read; it returns a response in every other case;
    and the values of tone, length and language never change whether it
    fails. *)
Theorem C4_bad_input_exactly ul (Hul : no_space_lowering ul) req :
  is_bad_input (summarize ul req) = no_content req || read_failed req /\
  is_return (summarize ul req) = negb (is_bad_input (summarize ul req)) /\
  forall t l g,
    is_bad_input (summarize ul (with_options req t l g))
    = is_bad_input (summarize ul req).
Proof.
  assert (Hbad : forall r,
    is_bad_input (summarize ul r) = no_content r || read_failed r /\
    is_return (summarize ul r) = negb (is_bad_input (summarize ul r))).
  { intros r. destruct (summarize_outcome r Hul) as [Hb Hr].
    rewrite Hb, Hr, resolve_content_priority.
    destruct (resolve_by_priority_outcome (text r) (file r) (image r)) as [Ho Hn].
    split; [|exact Hn]. rewrite Ho. unfold no_content, read_failed.
    destruct (text_given (text r)), (file_yields (file r)), (present (image r)),
      (file r) as [[n [raw|]]|]; reflexivity. }
  destruct (Hbad req) as [H1 H2]. split; [exact H1|]. split; [exact H2|].
  intros t l g. rewrite H1, (proj1 (Hbad _)). reflexivity.
Qed.

Lemma C4_witness :
  no_space_lowering lower_ascii_only /\
  is_bad_input (summarize lower_ascii_only default_request) = true /\
  is_return (summarize lower_ascii_only default_request) = false.
Proof.
  split; [exact lower_ascii_only_no_space|].
  destruct (C4_bad_input_exactly lower_ascii_only_no_space default_request)
    as (Hb & Hr & _).
  rewrite Hr, Hb. split; reflexivity.
Defined.

(** ** The priority of the sources *)

(** The decoder on well-formed and on broken input. *)
Example utf8_decode_well_formed :
  utf8_decode_ignore [xc3; xa9; xe2; x80; xa6; xf0; x9f; x98; x80]%byte
  = [0xE9; ELLIPSIS; 0x1F600].
Proof. reflexivity. Qed.

Example utf8_decode_broken :
  utf8_decode_ignore [x61; xff; x62; xc0; x80; xed; xa0; x80; x63; xe2; x80]%byte
  = lit "abc".
Proof. reflexivity. Qed.

(** C5: content resolution takes the first source, in the order text, file,
    image, that yields content. Text that is non-empty after trimming is
    used, trimmed, whatever the file and the image are. Otherwise the bytes
    of a file are decoded leniently: whatever they are, a file that was read
    never gives the file error, and a non-empty decoding is the content.
    Otherwise, without a file, an image gives the literal
    "[Image: <filename or uploaded image>]". *)
Theorem C5_priority_order text file image :
  resolve_content text file image = resolve_by_priority text file image /\
  (text_given text = true ->
     resolve_content text file image = Return (strip (opt_or text []), [])) /\
  (forall f raw,
     text_given text = false -> file = Some f -> read f = Some raw ->
     resolve_content text file image
       <> Raise (HTTPException 400 (lit "Could not read uploaded file as text."))
     /\ (utf8_decode_ignore raw <> [] ->
         resolve_content text file image
         = Return (utf8_decode_ignore raw,
                   opt_or (filename f) (lit "uploaded file")))) /\
  (forall i,
     text_given text = false -> file = None -> image = Some i ->
     let name := opt_or (filename i) (lit "uploaded image") in
     resolve_content text file image
     = Return (lit "[Image: " ++ name ++ lit "]", name)).
Proof.
  split; [apply resolve_content_priority|].
  split; [apply resolve_text|]. split.
  - intros f raw Ht -> Hr. split.
    + rewrite resolve_content_priority. unfold resolve_by_priority.
      rewrite Ht. cbn [file_unreadable file_yields]. rewrite Hr.
      destruct (truthy (utf8_decode_ignore raw)); [discriminate|].
      destruct (present image); discriminate.
    + intros Hd. apply resolve_file; [exact Ht | exact Hr |].
      now apply truthy_true.
  - intros i Ht -> ->. now apply resolve_image.
Qed.

Lemma C5_witness :
  resolve_content (Some (lit "  hi ")) (Some (upload "a.txt" [x61]%byte))
    (Some (upload "cat.png" []))
  = Return (lit "hi", []) /\
  resolve_content (Some [SPACE]) (Some (upload "a.txt" [x61; xff; x62]%byte))
    (Some (upload "cat.png" []))
  = Return (lit "ab", lit "a.txt") /\
  resolve_content None None (Some {| filename := None; read := None |})
  = Return (lit "[Image: uploaded image]", lit "uploaded image").
Proof.
  split; [|split].
  - exact (proj1 (proj2 (C5_priority_order (Some (lit "  hi "))
             (Some (upload "a.txt" [x61]%byte)) (Some (upload "cat.png" []))))
             eq_refl).
  - refine (proj2 (proj1 (proj2 (proj2 (C5_priority_order (Some [SPACE])
             (Some (upload "a.txt" [x61; xff; x62]%byte))
             (Some (upload "cat.png" [])))))
             _ _ eq_refl eq_refl eq_refl) _).
    discriminate.
  - exact (proj2 (proj2 (proj2 (C5_priority_order None None
             (Some {| filename := None; read := None |}))))
             _ eq_refl eq_refl eq_refl).
Defined.

(** ** The option tables *)

Lemma dict_get_default {V} (d : list (pystr * V)) k default :
  ~ In k (map fst d) -> dict_get d k default = default.
Proof.
  induction d as [|[k' v] d IH]; cbn [dict_get map fst]; [reflexivity|].
  intros H. destruct (pystr_eqb k' k) eqn:E.
  - apply pystr_eqb_eq in E. exfalso. apply H. now left.
  - apply IH. intros H'. apply H. now right.
Qed.

Ltac table_cases H :=
  repeat (destruct H as [H | H]; [injection H as <- <- | ]); try destruct H.

(** C6: the three lookups ignore letter case and default silently. length:
    short gives 160, medium 320, detailed 480, anything else 160. tone:
    analytical, executive, neutral and technical give their prefixes,
    anything else "Summary:". language: en gives no suffix, es, de and fr
    give " (ES)", " (DE)" and " (FR)", anything else no suffix. tone="WEIRD"
    gives the prefix "Summary:". *)
Theorem C6_option_lookups ul :
  lookup_spec (lower ul) (cap_for ul)
    [(lit "short", 160%Z); (lit "medium", 320%Z); (lit "detailed", 480%Z)]
    160%Z /\
  lookup_spec (lower ul) (tone_prefix_for ul)
    [(lit "analytical", lit "Analytical summary:");
     (lit "executive", lit "Executive brief:");
     (lit "neutral", lit "Summary:");
     (lit "technical", lit "Technical digest:")]
    (lit "Summary:") /\
  lookup_spec (lower ul) (lang_label_for ul)
    [(lit "en", lit ""); (lit "es", lit " (ES)"); (lit "de", lit " (DE)");
     (lit "fr", lit " (FR)")]
    (lit "") /\
  tone_prefix_for ul (lit "WEIRD") = lit "Summary:".
Proof.
  repeat split.
  - intros s k v Hin Hs. unfold cap_for. rewrite (lower_ignoring_case ul Hs).
    table_cases Hin; reflexivity.
  - intros s Hs. now apply dict_get_default.
  - intros s k v Hin Hs. unfold tone_prefix_for.
    rewrite (lower_ignoring_case ul Hs). table_cases Hin; reflexivity.
  - intros s Hs. now apply dict_get_default.
  - intros s k v Hin Hs. unfold lang_label_for.
    rewrite (lower_ignoring_case ul Hs). table_cases Hin; reflexivity.
  - intros s Hs. now apply dict_get_default.
Qed.

Lemma C6_witness :
  cap_for lower_ascii_only (lit "MeDiUm") = 320%Z /\
  cap_for lower_ascii_only (lit "huge") = 160%Z /\
  tone_prefix_for lower_ascii_only (lit "TECHNICAL") = lit "Technical digest:" /\
  lang_label_for lower_ascii_only (lit "Fr") = lit " (FR)" /\
  lang_label_for lower_ascii_only (lit "pt") = lit "".
Proof.
  destruct (C6_option_lookups lower_ascii_only)
    as ((Hc & Hc') & (Ht & _) & (Hl & Hl') & _).
  split; [|split; [|split; [|split]]].
  - apply Hc with (k := lit "medium"); [cbn; tauto|].
    split; [|reflexivity]. repeat constructor.
  - apply Hc'. vm_compute. intuition discriminate.
  - apply Ht with (k := lit "technical"); [cbn; tauto|].
    split; [|reflexivity]. repeat constructor.
  - apply Hl with (k := lit "fr"); [cbn; tauto|].
    split; [|reflexivity]. repeat constructor.
  - apply Hl'. vm_compute. intuition discriminate.
Defined.

(** ** The bulleted body *)

Lemma truncated_no_newline s c : ~ In NEWLINE (truncate (join [SPACE] (split_ws s)) c).
Proof.
  intros H. apply truncate_incl in H as [H | H]; [|discriminate H].
  pose proof (base_plain s) as Hp. rewrite Forall_forall in Hp.
  exact (plain_not_newline (Hp _ H) eq_refl).
Qed.

Lemma lines_bullet_body fs :
  ~ In NEWLINE fs ->
  lines (bullet_body fs) =
    [BULLET :: lit " Key point 1: " ++ fs;
     BULLET :: lit " Key point 2: Impact and implications.";
     BULLET :: lit " Next steps: Actions to take."].
Proof.
  intros H. unfold lines, bullet_body.
  change ([BULLET] ++ lit " Key point 1: " ++ fs ++ [NEWLINE] ++ ?r)
    with ((BULLET :: lit " Key point 1: ") ++ fs ++ NEWLINE :: r).
  rewrite app_assoc, split_sep_app.
  - reflexivity.
  - intros Hin. apply in_app_or in Hin as [Hin | Hin]; [|tauto].
    vm_compute in Hin. intuition discriminate.
Qed.

(** C7: whenever a request with bullets=true succeeds, the body is three
    lines that start with "• ": "• Key point 1: " followed by the trimmed
    first segment of the truncated text split at "." (the whole truncated
    text, trimmed, when that segment is empty), then the two fixed lines. *)
Theorem C7_bullets_three_lines ul req l :
  summarize_locals ul req = Return l -> bullets req = true ->
  let seg := hd [] (split_sep DOT (truncated l)) in
  lines (body l) =
    [BULLET :: lit " Key point 1: " ++ strip (str_or seg (truncated l));
     BULLET :: lit " Key point 2: Impact and implications.";
     BULLET :: lit " Next steps: Actions to take."] /\
  Forall (fun ln => startswith ln [BULLET; SPACE] = true) (lines (body l)) /\
  body l = join [NEWLINE] (lines (body l)).
Proof.
  intros H Hb. apply summarize_locals_inv in H. cbv zeta.
  rewrite split_sep_cut. cbn [hd].
  fold (first_sentence (truncated l)).
  assert (Hn : ~ In NEWLINE (first_sentence (truncated l))).
  { intros Hin. apply first_sentence_incl in Hin.
    rewrite (computed_truncated H), (computed_base H) in Hin.
    exact (truncated_no_newline _ _ Hin). }
  rewrite (computed_body H), Hb, (@lines_bullet_body _ Hn).
  split; [reflexivity|]. split.
  - repeat constructor.
  - unfold bullet_body. cbn [join app]. rewrite <- app_assoc. reflexivity.
Qed.

Lemma C7_witness :
  exists l,
    summarize_locals lower_ascii_only dotted_request = Return l /\
    lines (body l) =
      [BULLET :: lit " Key point 1: .env files. Keep out";
       BULLET :: lit " Key point 2: Impact and implications.";
       BULLET :: lit " Next steps: Actions to take."].
Proof.
  eexists. split; [vm_compute; reflexivity|].
  match goal with
  | |- lines (body ?l) = _ =>
      exact (proj1 (@C7_bullets_three_lines lower_ascii_only dotted_request l
                      eq_refl eq_refl))
  end.
Defined.

(** ** The summary string *)

Lemma prefix_line_no_newline ul t g :
  ~ In NEWLINE (tone_prefix_for ul t ++ lang_label_for ul g).
Proof.
  unfold tone_prefix_for, lang_label_for, tone_map, lang_map. cbn [dict_get].
  repeat match goal with
         | |- context [pystr_eqb ?a ?b] => destruct (pystr_eqb a b)
         end;
    vm_compute; intuition discriminate.
Qed.

(** C8: the summary of a successful request is the tone prefix, the language
    suffix, one newline and the body: the text before the first newline of
    the summary is prefix and suffix, the text after it is the body. For
    text="Hello world. This matters.", tone="executive", length="short",
    bullets=false the summary is "Executive brief:\nHello world. This
    matters.". *)
Theorem C8_summary_layout ul :
  (forall req r,
     summarize ul req = Return r ->
     exists l,
       summarize_locals ul req = Return l /\
       tone_prefix l = tone_prefix_for ul (tone req) /\
       lang_label l = lang_label_for ul (language req) /\
       SummaryResponse.summary r
         = tone_prefix l ++ lang_label l ++ [NEWLINE] ++ body l /\
       cut NEWLINE (SummaryResponse.summary r)
         = (tone_prefix l ++ lang_label l, Some (body l))) /\
  exists r,
    summarize ul hello_request = Return r /\
    SummaryResponse.summary r
      = lit "Executive brief:" ++ [NEWLINE] ++ lit "Hello world. This matters.".
Proof.
  split.
  - intros req r H. apply summarize_inv in H as (l & Hl & ->).
    exists l. split; [exact Hl|]. apply summarize_locals_inv in Hl.
    split; [apply (computed_tone_prefix Hl)|].
    split; [apply (computed_lang_label Hl)|].
    cbn [respond SummaryResponse.summary].
    split; [apply (computed_summary_text Hl)|].
    rewrite (computed_summary_text Hl), app_assoc. apply cut_app.
    rewrite (computed_tone_prefix Hl), (computed_lang_label Hl).
    apply prefix_line_no_newline.
  - eexists. split; vm_compute; reflexivity.
Qed.

Lemma C8_witness :
  exists r,
    summarize lower_ascii_only dotted_request = Return r /\
    cut NEWLINE (SummaryResponse.summary r)
    = (lit "Summary:", Some (bullet_body (lit ".env files. Keep out"))).
Proof.
  eexists. split; [vm_compute; reflexivity|].
  match goal with
  | |- cut _ (SummaryResponse.summary ?r) = _ =>
      destruct (proj1 (C8_summary_layout lower_ascii_only) dotted_request r eq_refl)
        as (l & Hl & _ & _ & _ & Hc)
  end.
  rewrite Hc. vm_compute in Hl. injection Hl as <-. reflexivity.
Defined.

(** ** The label of the input *)

Lemma strip_nil : strip [] = [].
Proof. reflexivity. Qed.

Lemma text_given_truthy text : text_given text = true -> opt_truthy text = true.
Proof.
  unfold text_given. destruct text as [[|c s]|]; cbn [opt_or str_or truthy opt_truthy];
    rewrite ?strip_nil; auto.
Qed.

Lemma opt_or_truthy x d : truthy d = true -> truthy (opt_or x d) = true.
Proof.
  intros H. destruct x as [s|]; [|exact H]. unfold opt_or, str_or.
  destruct (truthy s) eqn:E; [exact E | exact H].
Qed.

Lemma str_or_truthy x d : truthy x = true -> str_or x d = x.
Proof. unfold str_or. now intros ->. Qed.

(** C9: the used_input of a successful request names the source that was
    taken: "text" when the text, trimmed, is not empty; otherwise the file's
    filename, or "uploaded file", when the file gave the content; otherwise
    the image's filename, or "uploaded image". "text" is the fallback taken
    exactly when the handler set no label, which is when the text is the
    source; used_input is never empty. *)
Theorem C9_used_input ul req r :
  summarize ul req = Return r ->
  SummaryResponse.used_input r = source_label req /\
  SummaryResponse.used_input r <> [] /\
  exists l,
    summarize_locals ul req = Return l /\
    SummaryResponse.used_input r
      = str_or (used_input l) (if opt_truthy (text req) then lit "text" else []) /\
    (used_input l = [] <-> text_given (text req) = true).
Proof.
  intros H. apply summarize_inv in H as (l & Hl & ->).
  cbn [respond SummaryResponse.used_input].
  pose proof (computed_content (@summarize_locals_inv _ _ _ Hl)) as Hc.
  rewrite resolve_content_priority in Hc.
  unfold resolve_by_priority, source_label in *.
  assert (Hlabel : forall u d, present u = true -> truthy d = true ->
                               truthy (upload_label u d) = true).
  { intros [f|] d Hp Hd; [|discriminate]. now apply opt_or_truthy. }
  destruct (text_given (text req)) eqn:Ht.
  - assert (Hu : used_input l = []) by (injection Hc as _ Hu; now symmetry).
    rewrite Hu, (text_given_truthy _ Ht).
    cbn [str_or truthy]. split; [reflexivity|]. split; [discriminate|].
    exists l. rewrite Hu. repeat split; auto.
  - destruct (file_unreadable (file req)); [discriminate|].
    assert (Hn : truthy (used_input l) = true /\
                 used_input l =
                   if file_yields (file req)
                   then upload_label (file req) (lit "uploaded file")
                   else upload_label (image req) (lit "uploaded image")).
    { destruct (file_yields (file req)) eqn:Hy;
        [|destruct (present (image req)) eqn:Hp; [|discriminate]];
        (assert (Hu : forall c u, Return (c, u) = Return (content l, used_input l) ->
                                  used_input l = u)
           by (intros c u E; injection E as _ E; now symmetry));
        rewrite (Hu _ _ Hc); (split; [|reflexivity]); apply Hlabel;
        try reflexivity; try assumption.
      destruct (file req); [reflexivity | discriminate]. }
    destruct Hn as [Hn Hu].
    split; [rewrite (@str_or_truthy _ _ Hn); exact Hu|].
    split; [rewrite (@str_or_truthy _ _ Hn); now apply truthy_true|].
    exists l. split; [exact Hl|]. split; [reflexivity|].
    split; [|discriminate]. intros E. rewrite E in Hn. discriminate.
Qed.

Lemma C9_witness :
  exists r,
    summarize lower_ascii_only file_request = Return r /\
    SummaryResponse.used_input r = lit "notes.txt".
Proof.
  eexists. split; [vm_compute; reflexivity|].
  match goal with
  | |- SummaryResponse.used_input ?r = _ =>
      exact (proj1 (@C9_used_input lower_ascii_only file_request r eq_refl))
  end.
Defined.

(** ** A file of whitespace only *)

Lemma words_aux_blank s :
  Forall (fun c => isspace c = true) s -> words_aux s = ([], []).
Proof.
  induction 1 as [|c s Hc _ IH]; cbn [words_aux]; [reflexivity|].
  now rewrite IH, Hc.
Qed.

Lemma split_ws_blank s :
  Forall (fun c => isspace c = true) s -> split_ws s = [].
Proof. intros H. unfold split_ws. now rewrite (words_aux_blank H). Qed.

(** C10: when the text is empty or absent and the file decodes to a
    non-empty string of whitespace only, the request does not fail: the
    handler runs to its end with an empty base text, and with bullets=false
    the summary is the tone prefix, the language suffix, a newline and an
    empty body. (The lowercase table maps no character to a space, so that
    lines 94-99 cannot raise.) *)
Theorem C10_blank_file ul (Hul : no_space_lowering ul) req f raw :
  text req = None \/ text req = Some [] ->
  file req = Some f -> read f = Some raw ->
  utf8_decode_ignore raw <> [] ->
  Forall (fun c => isspace c = true) (utf8_decode_ignore raw) ->
  is_bad_input (summarize ul req) = false /\
  exists l,
    summarize_locals ul req = Return l /\
    summarize ul req = Return (respond req l) /\
    content l = utf8_decode_ignore raw /\
    base l = [] /\
    (bullets req = false ->
       body l = [] /\
       SummaryResponse.summary (respond req l)
       = tone_prefix_for ul (tone req) ++ lang_label_for ul (language req)
         ++ [NEWLINE]).
Proof.
  intros Ht Hf Hr Hd Hw.
  assert (Hg : text_given (text req) = false).
  { destruct Ht as [-> | ->]; reflexivity. }
  assert (Hres : resolve_content (text req) (file req) (image req)
                 = Return (utf8_decode_ignore raw,
                           opt_or (filename f) (lit "uploaded file"))).
  { rewrite Hf. apply resolve_file; [exact Hg | exact Hr | now apply truthy_true]. }
  destruct (summarize_locals_returns req Hul Hres) as (l & Hl & Hc & _).
  assert (Hs : summarize ul req = Return (respond req l)).
  { unfold summarize. now rewrite Hl. }
  split; [now rewrite Hs|].
  exists l. split; [exact Hl|]. split; [exact Hs|]. split; [exact Hc|].
  pose proof (@summarize_locals_inv _ _ _ Hl) as H.
  assert (Hb : base l = []).
  { rewrite (computed_base H), Hc, (split_ws_blank Hw). reflexivity. }
  split; [exact Hb|]. intros Hbul.
  assert (Hbody : body l = []).
  { rewrite (computed_body H), Hbul, (computed_truncated H), Hb.
    apply truncate_short. pose proof (cap_positive H). unfold len. cbn. lia. }
  split; [exact Hbody|].
  cbn [respond SummaryResponse.summary].
  rewrite (computed_summary_text H), Hbody, (computed_tone_prefix H),
    (computed_lang_label H).
  now rewrite app_nil_r.
Qed.

Lemma C10_witness :
  no_space_lowering lower_ascii_only /\
  exists r,
    summarize lower_ascii_only blank_file_request = Return r /\
    SummaryResponse.summary r = lit "Analytical summary: (FR)" ++ [NEWLINE].
Proof.
  split; [exact lower_ascii_only_no_space|].
  destruct (@C10_blank_file lower_ascii_only lower_ascii_only_no_space
              blank_file_request (upload "blank.txt" [x20; x20; x0a]%byte)
              [x20; x20; x0a]%byte)
    as (_ & l & _ & Hs & _ & _ & Hb).
  - right. reflexivity.
  - reflexivity.
  - reflexivity.
  - discriminate.
  - repeat constructor.
  - eexists. split; [exact Hs|]. exact (proj2 (Hb eq_refl)).
Defined.

(** * Further properties of the handler *)

(** ** Splitting and joining *)

Lemma words_aux_word_then_space w r :
  Forall (fun c => isspace c = false) w ->
  words_aux (w ++ SPACE :: r) = (w, split_ws r).
Proof.
  induction 1 as [|c w Hc _ IH]; cbn [app words_aux].
  - unfold split_ws. destruct (words_aux r) as [w' ws].
    change (isspace SPACE) with true. reflexivity.
  - now rewrite IH, Hc.
Qed.

Lemma words_aux_word w :
  Forall (fun c => isspace c = false) w -> words_aux w = (w, []).
Proof.
  induction 1 as [|c w Hc _ IH]; cbn [words_aux]; [reflexivity|].
  now rewrite IH, Hc.
Qed.

Lemma split_join_words ws :
  Forall proper_word ws -> split_ws (join [SPACE] ws) = ws.
Proof.
  induction 1 as [|w ws [Hne Hw] Hws IH]; [reflexivity|].
  destruct ws as [|q qs].
  - cbn [join]. unfold split_ws. rewrite (words_aux_word Hw).
    destruct w; [congruence | reflexivity].
  - rewrite join_cons. cbn [app]. unfold split_ws at 1.
    rewrite (words_aux_word_then_space _ Hw), IH.
    destruct w; [congruence | reflexivity].
Qed.

Lemma split_ws_proper s : Forall proper_word (split_ws s).
Proof. exact (split_ws_words s). Qed.

Lemma words_aux_rstrip_nil s : rstrip s = [] -> words_aux s = ([], []).
Proof.
  induction s as [|c s IH]; [reflexivity|].
  rewrite rstrip_cons. destruct (rstrip s) as [|y l]; [|discriminate].
  destruct (isspace c) eqn:E; [|discriminate].
  intros _. cbn [words_aux]. now rewrite IH, E.
Qed.

Lemma words_aux_rstrip s : words_aux (rstrip s) = words_aux s.
Proof.
  induction s as [|c s IH]; [reflexivity|].
  rewrite rstrip_cons. destruct (rstrip s) as [|y l] eqn:E.
  - cbn [words_aux]. rewrite (words_aux_rstrip_nil _ E).
    destruct (isspace c) eqn:Ec; cbn [words_aux]; now rewrite ?Ec.
  - cbn [words_aux] in *. now rewrite IH.
Qed.

Lemma split_ws_lstrip s : split_ws (lstrip s) = split_ws s.
Proof.
  unfold lstrip. induction s as [|c s IH]; [reflexivity|].
  cbn [dropWhile]. destruct (isspace c) eqn:E; [|reflexivity].
  rewrite IH. unfold split_ws. cbn [words_aux]. rewrite E.
  destruct (words_aux s) as [w ws]. reflexivity.
Qed.

(** Trimming a text first does not change its words. *)
Lemma split_ws_strip s : split_ws (strip s) = split_ws s.
Proof.
  unfold strip. unfold split_ws at 1. rewrite words_aux_rstrip.
  apply split_ws_lstrip.
Qed.

(** ** Tidy text *)

Lemma tidy_from_fixed p s :
  tidy_from p s = true -> collapse_runs p s = s /\ rstrip s = s.
Proof.
  revert p. induction s as [|c s IH]; intros p H; [now split|].
  cbn [tidy_from] in H. cbn [collapse_runs]. rewrite rstrip_cons.
  destruct (c =? SPACE) eqn:Ec.
  - apply N.eqb_eq in Ec. subst c. apply andb_prop in H as [Hp H].
    destruct p; [discriminate|]. change (isspace SPACE) with true.
    destruct (IH _ H) as [-> ->]. split; [reflexivity|].
    destruct s; [discriminate H | reflexivity].
  - apply andb_prop in H as [Hc H]. apply negb_true_iff in Hc. rewrite Hc.
    destruct (IH _ H) as [-> ->]. split; [reflexivity|].
    destruct s; reflexivity.
Qed.

(** Tidy text is left as it is by [" ".join(s.split())]. *)
Lemma tidy_normal s : tidy s = true -> join [SPACE] (split_ws s) = s.
Proof.
  destruct s as [|c s]; [reflexivity|]. unfold tidy. intros H.
  rewrite <- (proj1 (join_split_collapse (c :: s))).
  destruct (tidy_from_fixed _ _ H) as [-> ->]. reflexivity.
Qed.

Lemma tidy_from_word p w r :
  w <> [] -> Forall (fun c => isspace c = false) w ->
  tidy_from p (w ++ r) = tidy_from false r.
Proof.
  intros Hne Hw. revert p. induction Hw as [|c w Hc Hw IH]; [congruence|].
  intros p. cbn [app tidy_from].
  assert (Ec : (c =? SPACE) = false).
  { apply N.eqb_neq. intros ->. discriminate Hc. }
  rewrite Ec, Hc. cbn [negb andb].
  destruct w as [|d w]; [reflexivity|]. apply IH. discriminate.
Qed.

Lemma join_tidy_from ws :
  ws <> [] -> Forall proper_word ws -> tidy_from true (join [SPACE] ws) = true.
Proof.
  intros Hne H. induction H as [|w ws [Hw1 Hw2] Hws IH]; [congruence|].
  destruct ws as [|q qs].
  - cbn [join]. rewrite <- (app_nil_r w), tidy_from_word by assumption.
    reflexivity.
  - rewrite join_cons, tidy_from_word by assumption.
    cbn [app tidy_from]. rewrite N.eqb_refl. apply IH. discriminate.
Qed.

Lemma join_tidy ws : Forall proper_word ws -> tidy (join [SPACE] ws) = true.
Proof.
  intros H. destruct ws as [|w ws]; [reflexivity|].
  pose proof (@join_tidy_from (w :: ws) ltac:(discriminate) H) as Ht.
  unfold tidy. destruct (join [SPACE] (w :: ws)); [reflexivity | exact Ht].
Qed.

Lemma tidy_from_ellipsis p b k :
  tidy_from p b = true -> tidy_from p (firstn k b ++ [ELLIPSIS]) = true.
Proof.
  revert p k. induction b as [|c b IH]; intros p k H.
  - rewrite firstn_nil. reflexivity.
  - destruct k as [|k]; [reflexivity|].
    cbn [firstn app tidy_from] in *.
    destruct (c =? SPACE); apply andb_prop in H as [H1 H2];
      rewrite H1, (IH _ _ H2); reflexivity.
Qed.

Lemma truncate_tidy b c : (0 < c)%Z -> tidy b = true -> tidy (truncate b c) = true.
Proof.
  intros Hc H. unfold truncate. destruct (len b >? c)%Z; [|exact H].
  rewrite slice_to_nonneg by lia.
  destruct b as [|x b]; [rewrite firstn_nil; reflexivity|].
  unfold tidy in *.
  pose proof (@tidy_from_ellipsis _ _ (Z.to_nat (c - 1)) H) as Ht.
  destruct (firstn (Z.to_nat (c - 1)) (x :: b) ++ [ELLIPSIS]); [reflexivity | exact Ht].
Qed.

Lemma tidy_strip s : tidy s = true -> strip s = s.
Proof.
  destruct s as [|c s]; [reflexivity|]. unfold tidy. intros H.
  destruct (tidy_from_fixed _ _ H) as [_ Hr].
  unfold strip, lstrip. cbn [tidy_from dropWhile] in *.
  destruct (c =? SPACE); [discriminate H|].
  apply andb_prop in H as [Hc _]. apply negb_true_iff in Hc. now rewrite Hc.
Qed.

(** ** Running the handler forwards *)

Lemma summarize_locals_headers ul req l :
  summarize_locals ul req = Return l ->
  exists k, parse_api_key ul (authorization req) (x_api_key req) = Return k.
Proof.
  unfold summarize_locals.
  destruct (parse_api_key ul (authorization req) (x_api_key req)) as [k|];
    [now exists k | discriminate].
Qed.

Lemma summarize_locals_run ul req k c u :
  parse_api_key ul (authorization req) (x_api_key req) = Return k ->
  resolve_content (text req) (file req) (image req) = Return (c, u) ->
  exists l, summarize_locals ul req = Return l /\ content l = c /\ used_input l = u.
Proof.
  intros Hk Hr. unfold summarize_locals. rewrite Hk. cbn [bind].
  rewrite Hr. cbn [bind]. rewrite make_body_returns. cbn [bind].
  eexists. split; [reflexivity|]. split; reflexivity.
Qed.

(** Two runs with the same options and the same words in their contents
    agree on everything they format. *)
Lemma computed_same_words ul req req' l l' :
  computed ul req l -> computed ul req' l' ->
  tone req' = tone req -> length req' = length req ->
  language req' = language req -> bullets req' = bullets req ->
  split_ws (content l') = split_ws (content l) ->
  base l' = base l /\ truncated l' = truncated l /\ body l' = body l /\
  summary_text l' = summary_text l.
Proof.
  intros H H' Ht Hn Hg Hb Hw.
  assert (E1 : base l' = base l).
  { now rewrite (computed_base H), (computed_base H'), Hw. }
  assert (E2 : cap l' = cap l).
  { now rewrite (computed_cap H), (computed_cap H'), Hn. }
  assert (E3 : truncated l' = truncated l).
  { now rewrite (computed_truncated H), (computed_truncated H'), E1, E2. }
  assert (E4 : body l' = body l).
  { now rewrite (computed_body H), (computed_body H'), Hb, E3. }
  repeat split; try assumption.
  rewrite (computed_summary_text H), (computed_summary_text H'), E4,
    (computed_tone_prefix H), (computed_tone_prefix H'),
    (computed_lang_label H), (computed_lang_label H'), Ht, Hg.
  reflexivity.
Qed.

(** ** What the handler keeps *)

Lemma handler_tidy ul req l :
  computed ul req l -> tidy (base l) = true /\ tidy (truncated l) = true.
Proof.
  intros H.
  assert (Hb : tidy (base l) = true).
  { rewrite (computed_base H). apply join_tidy, split_ws_proper. }
  split; [exact Hb|]. rewrite (computed_truncated H).
  apply truncate_tidy; [exact (cap_positive H) | exact Hb].
Qed.

(** X1: whenever the handler returns, the whitespace-normalized text and the
    truncated text are tidy: their only whitespace is single spaces between
    other characters (none at either end, no two in a row, no tab or
    newline). *)
Theorem X1_base_and_truncated_tidy ul req l :
  summarize_locals ul req = Return l ->
  tidy (base l) = true /\ tidy (truncated l) = true.
Proof.
  intros H. apply summarize_locals_inv in H. exact (handler_tidy H).
Qed.

Lemma X1_witness :
  exists l,
    summarize_locals lower_ascii_only spaced_request = Return l /\
    base l = lit "Hello world. Bye" /\ tidy (base l) = true.
Proof.
  eexists. split; [vm_compute; reflexivity|]. split; [reflexivity|].
  match goal with
  | |- tidy (base ?l) = _ =>
      exact (proj1 (@X1_base_and_truncated_tidy lower_ascii_only spaced_request
                      l eq_refl))
  end.
Defined.

(** X2: splitting at whitespace undoes joining with single spaces: for
    words that are non-empty and free of whitespace,
    [" ".join(ws).split() == ws]. *)
Theorem X2_split_join_round_trip ws :
  Forall proper_word ws -> split_ws (join [SPACE] ws) = ws.
Proof. apply split_join_words. Qed.

Lemma X2_witness :
  split_ws (join [SPACE] [lit "Hello"; lit "world."; lit "Bye"])
  = [lit "Hello"; lit "world."; lit "Bye"].
Proof.
  apply X2_split_join_round_trip.
  repeat (constructor; [split; [discriminate | repeat constructor]|]).
  constructor.
Defined.

(** X3: a body without bullets is a fixed point of the handler: sending a
    non-empty body back as the text, with the same options, gives the same
    body and the same summary. *)
Theorem X3_body_resubmitted ul req l :
  summarize_locals ul req = Return l ->
  bullets req = false -> body l <> [] ->
  exists l',
    summarize_locals ul (with_text req (body l)) = Return l' /\
    content l' = body l /\ body l' = body l /\
    summary_text l' = summary_text l.
Proof.
  intros Hl Hb Hne.
  destruct (summarize_locals_headers _ _ Hl) as [k Hk].
  pose proof (@summarize_locals_inv _ _ _ Hl) as H.
  destruct (handler_tidy H) as [_ Ht].
  assert (Hbody : body l = truncated l).
  { now rewrite (computed_body H), Hb. }
  rewrite Hbody in *.
  assert (Hres : resolve_content (text (with_text req (truncated l)))
                   (file (with_text req (truncated l)))
                   (image (with_text req (truncated l)))
                 = Return (truncated l, [])).
  { cbn [with_text text file image]. rewrite resolve_text.
    - cbn [opt_or]. unfold str_or.
      destruct (truthy (truncated l)) eqn:E;
        [now rewrite tidy_strip | apply truthy_true in Hne; congruence].
    - unfold text_given. cbn [opt_or]. unfold str_or.
      apply truthy_true in Hne. rewrite Hne, tidy_strip by assumption.
      exact Hne. }
  destruct (@summarize_locals_run ul (with_text req (truncated l)) k _ _ Hk Hres)
    as (l' & Hl' & Hc & _).
  exists l'. split; [exact Hl'|]. split; [exact Hc|].
  pose proof (@summarize_locals_inv _ _ _ Hl') as H'.
  cbn [with_text tone length language bullets] in H'.
  assert (Hcap : cap l' = cap l).
  { now rewrite (computed_cap H), (computed_cap H'). }
  assert (Hbase : base l' = truncated l).
  { rewrite (computed_base H'), Hc. now apply tidy_normal. }
  assert (Htr : truncated l' = truncated l).
  { rewrite (computed_truncated H'), Hbase, Hcap. apply truncate_short.
    rewrite (computed_truncated H). apply truncate_len, (cap_positive H). }
  assert (Hb' : body l' = truncated l).
  { rewrite (computed_body H'). cbn [with_text bullets]. now rewrite Hb. }
  split; [exact Hb'|].
  rewrite (computed_summary_text H), (computed_summary_text H'), Hb',
    (computed_tone_prefix H), (computed_tone_prefix H'),
    (computed_lang_label H), (computed_lang_label H'), (computed_body H), Hb.
  reflexivity.
Qed.

Lemma X3_witness :
  exists l l',
    summarize_locals lower_ascii_only (long_request false) = Return l /\
    summarize_locals lower_ascii_only
      (with_text (long_request false) (body l)) = Return l' /\
    body l' = firstn 159 long_text ++ [ELLIPSIS].
Proof.
  eexists.
  match goal with
  | |- exists l', summarize_locals _ (long_request false) = Return ?l /\ _ =>
      destruct (@X3_body_resubmitted lower_ascii_only (long_request false) l)
        as (l' & Hl' & _ & Hb & _)
  end.
  - vm_compute. reflexivity.
  - reflexivity.
  - vm_compute. discriminate.
  - exists l'. split; [vm_compute; reflexivity|]. split; [exact Hl'|].
    rewrite Hb. vm_compute. reflexivity.
Defined.

(** ** A file against the same text *)

(** X4: a file and the text it decodes to are summarized alike: when the
    handler returns for a request whose content comes from its file, and the
    decoded text is not blank, the same request with that text in the text
    field gives the same body and the same summary. *)
Theorem X4_file_as_text ul req f raw l :
  summarize_locals ul req = Return l ->
  text_given (text req) = false -> file req = Some f -> read f = Some raw ->
  text_given (Some (utf8_decode_ignore raw)) = true ->
  exists l',
    summarize_locals ul (with_text req (utf8_decode_ignore raw)) = Return l' /\
    body l' = body l /\ summary_text l' = summary_text l.
Proof.
  intros Hl Ht Hf Hr Hd.
  destruct (summarize_locals_headers _ _ Hl) as [k Hk].
  pose proof (@summarize_locals_inv _ _ _ Hl) as H.
  assert (Hc : content l = utf8_decode_ignore raw).
  { pose proof (computed_content H) as Hc. rewrite Hf in Hc.
    rewrite (@resolve_file _ _ _ (image req) Ht Hr) in Hc; [now injection Hc|].
    apply text_given_truthy in Hd. exact Hd. }
  set (d := utf8_decode_ignore raw) in *.
  assert (Hres : resolve_content (text (with_text req d)) (file (with_text req d))
                   (image (with_text req d))
                 = Return (strip (opt_or (Some d) []), [])).
  { cbn [with_text text file image]. now apply resolve_text. }
  destruct (@summarize_locals_run ul (with_text req d) k _ _ Hk Hres)
    as (l' & Hl' & Hc' & _).
  exists l'. split; [exact Hl'|].
  pose proof (@summarize_locals_inv _ _ _ Hl') as H'.
  assert (Hw : split_ws (content l') = split_ws (content l)).
  { rewrite Hc', Hc. cbn [opt_or]. unfold str_or.
    destruct (truthy d) eqn:E; [apply split_ws_strip|].
    apply text_given_truthy in Hd. cbn [opt_truthy] in Hd. congruence. }
  destruct (computed_same_words H H' eq_refl eq_refl eq_refl eq_refl Hw)
    as (_ & _ & Hb & Hs).
  now split.
Qed.

Lemma X4_witness :
  exists l l',
    summarize_locals lower_ascii_only file_request = Return l /\
    summarize_locals lower_ascii_only (with_text file_request long_text)
      = Return l' /\
    summary_text l' = summary_text l.
Proof.
  eexists.
  match goal with
  | |- exists l', summarize_locals _ file_request = Return ?l /\ _ =>
      destruct (@X4_file_as_text lower_ascii_only file_request
                  (upload "notes.txt" (List.concat (repeat [x61; x62; x63]%byte 100)))
                  (List.concat (repeat [x61; x62; x63]%byte 100)) l)
        as (l' & Hl' & _ & Hs)
  end.
  - vm_compute. reflexivity.
  - reflexivity.
  - reflexivity.
  - reflexivity.
  - reflexivity.
  - exists l'. split; [vm_compute; reflexivity|]. split; [exact Hl' | exact Hs].
Defined.

(** ** How long the summary can get *)

Lemma dropWhile_length p s : (List.length (dropWhile p s) <= List.length s)%nat.
Proof.
  induction s as [|c s IH]; cbn [dropWhile]; [lia|].
  destruct (p c); cbn [List.length]; lia.
Qed.

Lemma strip_length s : (List.length (strip s) <= List.length s)%nat.
Proof.
  unfold strip, rstrip, lstrip. rewrite length_rev.
  etransitivity; [apply dropWhile_length|]. rewrite length_rev.
  apply dropWhile_length.
Qed.

Lemma cut_length sep s : (List.length (fst (cut sep s)) <= List.length s)%nat.
Proof.
  rewrite (proj2 (cut_spec sep s)) at 2. rewrite length_app. lia.
Qed.

Lemma first_sentence_length t :
  (List.length (first_sentence t) <= List.length t)%nat.
Proof.
  unfold first_sentence, str_or. etransitivity; [apply strip_length|].
  destruct (truthy (fst (cut DOT t))); [apply cut_length | lia].
Qed.

Lemma prefix_line_length ul t g :
  (len (tone_prefix_for ul t ++ lang_label_for ul g) <= 24)%Z.
Proof.
  unfold tone_prefix_for, lang_label_for, tone_map, lang_map. cbn [dict_get].
  repeat match goal with
         | |- context [pystr_eqb ?a ?b] => destruct (pystr_eqb a b)
         end;
    vm_compute; discriminate.
Qed.

(** X5: the length of what the handler returns is bounded: a body is at most
    [cap + 86] characters long (at most [cap] without bullets), the line
    before it at most 24, and so no summary has more than 591 characters. *)
Theorem X5_summary_bounds ul req l :
  summarize_locals ul req = Return l ->
  (len (body l) <= cap l + (if bullets req then 86 else 0))%Z /\
  (len (summary_text l) <= len (body l) + 25)%Z /\
  (len (summary_text l) <= 591)%Z.
Proof.
  intros Hl. apply summarize_locals_inv in Hl as H.
  pose proof (cap_positive H) as Hc.
  assert (Ht : (len (truncated l) <= cap l)%Z).
  { rewrite (computed_truncated H). now apply truncate_len. }
  assert (Hb : (len (body l) <= cap l + (if bullets req then 86 else 0))%Z).
  { rewrite (computed_body H). destruct (bullets req); [|lia].
    pose proof (first_sentence_length (truncated l)) as Hf.
    unfold bullet_body, len in *. rewrite !length_app. cbn [List.length lit].
    lia. }
  assert (Hs : (len (summary_text l) <= len (body l) + 25)%Z).
  { rewrite (computed_summary_text H), (computed_tone_prefix H),
      (computed_lang_label H).
    pose proof (prefix_line_length ul (tone req) (language req)) as Hp.
    unfold len in *. rewrite !length_app in *. cbn [List.length]. lia. }
  split; [exact Hb|]. split; [exact Hs|].
  assert (Hcap : (cap l <= 480)%Z).
  { rewrite (computed_cap H). unfold cap_for.
    pose proof (cap_values (lower ul (length req))) as Hv. cbv zeta in Hv. lia. }
  destruct (bullets req); lia.
Qed.

Lemma X5_witness :
  exists l,
    summarize_locals lower_ascii_only (long_request true) = Return l /\
    len (body l) = 246%Z /\ (len (body l) <= 160 + 86)%Z.
Proof.
  eexists. split; [vm_compute; reflexivity|]. split; [reflexivity|].
  match goal with
  | |- (len (body ?l) <= _)%Z =>
      exact (proj1 (@X5_summary_bounds lower_ascii_only (long_request true) l
                      eq_refl))
  end.
Defined.

(** ** Key point 1 and the empty body *)

Lemma truncate_nil_iff b c : (0 < c)%Z -> (truncate b c = [] <-> b = []).
Proof.
  intros Hc. unfold truncate. destruct (len b >? c)%Z eqn:E; [|tauto]. split.
  - intros H. destruct (slice_to b (c - 1)); discriminate H.
  - intros ->. unfold len in E. cbn [List.length] in E.
    rewrite Z.gtb_ltb in E. apply Z.ltb_lt in E. lia.
Qed.

Lemma strip_word_start c a : isspace c = false -> strip (c :: a) <> [].
Proof.
  intros Hc. unfold strip, lstrip. cbn [dropWhile]. rewrite Hc, rstrip_cons.
  destruct (rstrip a); [rewrite Hc|]; discriminate.
Qed.

Lemma tidy_head c t : tidy (c :: t) = true -> isspace c = false.
Proof.
  unfold tidy. cbn [tidy_from]. destruct (c =? SPACE); [discriminate|].
  intros H. apply andb_prop in H as [H _]. now apply negb_true_iff.
Qed.

Lemma first_sentence_nil_iff t :
  tidy t = true -> (first_sentence t = [] <-> t = []).
Proof.
  intros Ht. split; [|now intros ->].
  destruct t as [|c t]; [reflexivity|]. intros H. exfalso.
  pose proof (tidy_head _ _ Ht) as Hc.
  unfold first_sentence, str_or in H. cbn [cut] in H.
  destruct (c =? DOT).
  - cbn [fst truthy] in H. exact (@strip_word_start _ _ Hc H).
  - destruct (cut DOT t) as [a b]. cbn [fst truthy] in H.
    exact (@strip_word_start _ _ Hc H).
Qed.

Lemma first_sentence_no_dot t :
  hd_error t <> Some DOT -> ~ In DOT (first_sentence t).
Proof.
  intros Hd Hin. unfold first_sentence, str_or in Hin. apply strip_incl in Hin.
  destruct t as [|c t]; [exact Hin|].
  cbn [cut] in Hin. destruct (c =? DOT) eqn:E.
  - apply N.eqb_eq in E. subst c. now apply Hd.
  - pose proof (proj1 (cut_spec DOT t)) as Hn.
    destruct (cut DOT t) as [a b]. cbn [fst truthy] in *.
    apply N.eqb_neq in E. destruct Hin as [Hin | Hin]; [congruence | tauto].
Qed.

(** X6: the text of key point 1. It has no full stop in it unless the
    truncated text begins with one, and it is empty exactly when the
    whitespace-normalized text is empty; with bullets=true the body is the
    three lines built around it. *)
Theorem X6_key_point_text ul req l :
  summarize_locals ul req = Return l ->
  let fs := first_sentence (truncated l) in
  (bullets req = true -> body l = bullet_body fs) /\
  (hd_error (truncated l) <> Some DOT -> ~ In DOT fs) /\
  (fs = [] <-> base l = []).
Proof.
  intros Hl. apply summarize_locals_inv in Hl as H. cbv zeta.
  split; [intros Hb; now rewrite (computed_body H), Hb|].
  split; [apply first_sentence_no_dot|].
  destruct (handler_tidy H) as [_ Ht].
  rewrite (@first_sentence_nil_iff _ Ht), (computed_truncated H).
  apply truncate_nil_iff, (cap_positive H).
Qed.

Lemma X6_witness :
  exists l,
    summarize_locals lower_ascii_only cat_request = Return l /\
    first_sentence (truncated l) = lit "[Image: cat" /\
    ~ In DOT (first_sentence (truncated l)).
Proof.
  eexists. split; [vm_compute; reflexivity|]. split; [reflexivity|].
  match goal with
  | |- ~ In DOT (first_sentence (truncated ?l)) =>
      refine (proj1 (proj2 (@X6_key_point_text lower_ascii_only cat_request l
                              eq_refl)) _)
  end.
  vm_compute. discriminate.
Defined.

Lemma split_ws_nil_iff s :
  split_ws s = [] <-> Forall (fun c => isspace c = true) s.
Proof.
  split; [|apply split_ws_blank].
  unfold split_ws. induction s as [|c s IH]; [constructor|].
  cbn [words_aux]. destruct (words_aux s) as [w ws].
  destruct (isspace c) eqn:E.
  - rewrite cons_word_nil. intros H. constructor; [exact E | exact (IH H)].
  - cbn [cons_word]. discriminate.
Qed.

Lemma base_nil_iff s :
  join [SPACE] (split_ws s) = [] <-> Forall (fun c => isspace c = true) s.
Proof.
  rewrite <- split_ws_nil_iff. split; [|now intros ->].
  intros H. destruct (split_ws s) as [|w ws] eqn:E; [reflexivity|].
  exfalso. revert H. apply join_nonempty; [discriminate|].
  pose proof (split_ws_words s) as Hw. rewrite E in Hw.
  eapply Forall_impl; [|exact Hw]. cbv beta. tauto.
Qed.

Lemma strip_not_blank s :
  strip s <> [] -> ~ Forall (fun c => isspace c = true) (strip s).
Proof.
  intros Hne Hall. apply split_ws_blank in Hall.
  rewrite split_ws_strip in Hall. apply split_ws_nil_iff in Hall.
  apply Hne. unfold strip, lstrip.
  assert (Hd : dropWhile isspace s = []).
  { clear Hne. induction Hall as [|c s Hc _ IH]; cbn [dropWhile];
      [reflexivity | now rewrite Hc]. }
  now rewrite Hd.
Qed.

(** X7: on success the resolved content is never empty, and the
    whitespace-normalized text is empty exactly when the content is all
    whitespace; that happens only for content decoded from a file, never
    for the text field or an image. *)
Theorem X7_empty_base_only_from_file ul req l :
  summarize_locals ul req = Return l ->
  content l <> [] /\
  (base l = [] <-> Forall (fun c => isspace c = true) (content l)) /\
  (base l = [] ->
     text_given (text req) = false /\ file_yields (file req) = true /\
     content l = decoded (file req)).
Proof.
  intros Hl. apply summarize_locals_inv in Hl as H.
  pose proof (computed_content H) as Hc.
  split; [apply truthy_true; exact (resolve_content_truthy _ _ _ Hc)|].
  rewrite (computed_base H). split; [apply base_nil_iff|].
  intros Hb. apply base_nil_iff in Hb.
  rewrite resolve_content_priority in Hc. unfold resolve_by_priority in Hc.
  destruct (text_given (text req)) eqn:Ht.
  - exfalso. injection Hc as Hc _. rewrite <- Hc in Hb.
    revert Hb. apply strip_not_blank. now apply truthy_true.
  - destruct (file_unreadable (file req)); [discriminate|].
    destruct (file_yields (file req)).
    + injection Hc as Hc _. auto.
    + destruct (present (image req)); [|discriminate].
      exfalso. injection Hc as Hc _. rewrite <- Hc in Hb.
      inversion Hb as [|? ? Hbad]. discriminate Hbad.
Qed.

Lemma X7_witness :
  exists l,
    summarize_locals lower_ascii_only blank_file_request = Return l /\
    base l = [] /\ file_yields (file blank_file_request) = true.
Proof.
  eexists. split; [vm_compute; reflexivity|]. split; [reflexivity|].
  match goal with
  | |- _ =>
      refine (proj1 (proj2 (proj2 (proj2
                (@X7_empty_base_only_from_file lower_ascii_only
                   blank_file_request _ eq_refl)) eq_refl)))
  end.
Defined.

(** ** The headers *)

Lemma with_headers_locals ul req a x k k' :
  parse_api_key ul (authorization req) (x_api_key req) = Return k ->
  parse_api_key ul a x = Return k' ->
  summarize_locals ul (with_headers req a x) = summarize_locals ul req.
Proof.
  intros Hk Hk'. unfold summarize_locals.
  cbn [with_headers authorization x_api_key text file image tone length
       language bullets].
  now rewrite Hk, Hk'.
Qed.

(** X8: the Authorization and X-API-Key headers are parsed and then ignored:
    with a lowercase table that maps no character to a space, a request gives
    the same outcome whatever its two headers are. *)
Theorem X8_headers_ignored ul (Hul : no_space_lowering ul) req a x :
  summarize ul (with_headers req a x) = summarize ul req.
Proof.
  destruct (parse_api_key_returns (authorization req) (x_api_key req) Hul)
    as [k Hk].
  destruct (parse_api_key_returns a x Hul) as [k' Hk'].
  unfold summarize. rewrite (@with_headers_locals _ _ _ _ _ _ Hk Hk').
  destruct (summarize_locals ul req); reflexivity.
Qed.

Lemma X8_witness :
  no_space_lowering lower_ascii_only /\
  summarize lower_ascii_only
    (with_headers hello_request (Some (lit "Bearer secret")) (Some (lit "key")))
  = summarize lower_ascii_only hello_request.
Proof.
  split; [exact lower_ascii_only_no_space|].
  exact (X8_headers_ignored lower_ascii_only_no_space hello_request _ _).
Defined.

Lemma truthy_false_nil s : truthy s = false -> s = [].
Proof. destruct s; [reflexivity | discriminate]. Qed.

Lemma lower_from_ascii_prefix ul before p r :
  Forall (fun c => c < 0x80) p ->
  lower_from ul before (p ++ r)
  = map ascii_lower p ++ lower_from ul (rev p ++ before) r.
Proof.
  intros H. revert before. induction H as [|c p Hc _ IH]; intros before.
  - reflexivity.
  - cbn [app lower_from map rev]. apply N.ltb_lt in Hc. rewrite Hc, IH.
    rewrite <- app_assoc. reflexivity.
Qed.

Lemma startswith_app k r : startswith (k ++ r) k = true.
Proof.
  induction k as [|c k IH]; [destruct r; reflexivity|].
  cbn [app startswith]. now rewrite N.eqb_refl, IH.
Qed.

Lemma ascii_lower_not_space c : ascii_lower c <> SPACE -> (c =? SPACE) = false.
Proof.
  intros H. apply N.eqb_neq. intros ->. now apply H.
Qed.

(** X9: what lines 94-99 compute. A header that is "bearer ", in any letter
    case, followed by a token gives the trimmed token as the key; the
    X-API-Key header is taken only when that token is blank, or when the
    Authorization header is absent or does not start with "bearer ". *)
Theorem X9_bearer_token_first ul x :
  (forall p tok,
     same_ignoring_case p (lit "bearer ") ->
     parse_api_key ul (Some (p ++ tok)) x =
     Return (if truthy (strip tok) then Some (strip tok)
             else if opt_truthy x then x else Some [])) /\
  (forall a,
     startswith (lower ul a) (lit "bearer ") = false ->
     parse_api_key ul (Some a) x = Return (if opt_truthy x then x else None)) /\
  parse_api_key ul None x = Return (if opt_truthy x then x else None).
Proof.
  split; [|split].
  - intros p tok [Hascii Hmap]. unfold parse_api_key, lower.
    rewrite (@lower_from_ascii_prefix ul [] _ tok Hascii), Hmap, startswith_app.
    destruct p as [|c1 [|c2 [|c3 [|c4 [|c5 [|c6 [|c7 [|c8 p]]]]]]]];
      try discriminate Hmap.
    cbn [map] in Hmap. injection Hmap as H1 H2 H3 H4 H5 H6 H7.
    apply ascii_lower_space in H7. subst c7.
    assert (E1 : (c1 =? SPACE) = false)
      by (apply ascii_lower_not_space; rewrite H1; discriminate).
    assert (E2 : (c2 =? SPACE) = false)
      by (apply ascii_lower_not_space; rewrite H2; discriminate).
    assert (E3 : (c3 =? SPACE) = false)
      by (apply ascii_lower_not_space; rewrite H3; discriminate).
    assert (E4 : (c4 =? SPACE) = false)
      by (apply ascii_lower_not_space; rewrite H4; discriminate).
    assert (E5 : (c5 =? SPACE) = false)
      by (apply ascii_lower_not_space; rewrite H5; discriminate).
    assert (E6 : (c6 =? SPACE) = false)
      by (apply ascii_lower_not_space; rewrite H6; discriminate).
    unfold split_sep1. cbn [app cut truthy andb].
    rewrite E1, E2, E3, E4, E5, E6, N.eqb_refl.
    cbn [getitem nth_error bind opt_truthy].
    destruct (truthy (strip tok)) eqn:Et; cbn [negb andb]; [reflexivity|].
    apply truthy_false_nil in Et. rewrite Et.
    destruct (opt_truthy x); reflexivity.
  - intros a Ha. unfold parse_api_key. rewrite Ha, andb_false_r.
    cbn [bind opt_truthy negb andb]. destruct (opt_truthy x); reflexivity.
  - unfold parse_api_key. cbn [bind opt_truthy negb andb].
    destruct (opt_truthy x); reflexivity.
Qed.

Lemma X9_witness :
  parse_api_key lower_ascii_only (Some (lit "BeArEr " ++ lit "  abc123 "))
    (Some (lit "key"))
  = Return (Some (lit "abc123")) /\
  parse_api_key lower_ascii_only (Some (lit "Bearer " ++ lit "   "))
    (Some (lit "key"))
  = Return (Some (lit "key")) /\
  parse_api_key lower_ascii_only (Some (lit "Basic abc")) (Some (lit "key"))
  = Return (Some (lit "key")).
Proof.
  destruct (X9_bearer_token_first lower_ascii_only (Some (lit "key")))
    as (Hb & Hn & _).
  split; [|split].
  - refine (Hb (lit "BeArEr ") (lit "  abc123 ") _).
    split; [repeat constructor | reflexivity].
  - refine (Hb (lit "Bearer ") (lit "   ") _).
    split; [repeat constructor | reflexivity].
  - exact (Hn (lit "Basic abc") eq_refl).
Defined.

(** ** The two errors *)

Lemma summarize_raises_iff ul req e :
  no_space_lowering ul ->
  (summarize ul req = Raise e
   <-> resolve_content (text req) (file req) (image req) = Raise e).
Proof.
  intros Hul. unfold summarize.
  destruct (resolve_content (text req) (file req) (image req)) as [[c u]|e'] eqn:Hr.
  - destruct (summarize_locals_returns req Hul Hr) as (l & -> & _).
    cbn [bind]. split; discriminate.
  - rewrite (summarize_locals_raises req Hul Hr). cbn [bind].
    split; intros [= ->]; reflexivity.
Qed.

(** X10: which error a failing request gets. The detail is "Could not read
    uploaded file as text." exactly when the text gives nothing and reading
    the file raises, also when an image was sent along; it is "No input
    provided. Submit text, a file, or an image." exactly when no source
    yields content and no read failed. (The lowercase table maps no character
    to a space.) *)
Theorem X10_error_details ul (Hul : no_space_lowering ul) req :
  (summarize ul req = Raise (HTTPException 400 DETAIL_UNREADABLE)
   <-> read_failed req = true) /\
  (summarize ul req = Raise (HTTPException 400 DETAIL_NO_INPUT)
   <-> no_content req && negb (read_failed req) = true).
Proof.
  rewrite !(summarize_raises_iff req _ Hul), resolve_content_priority.
  unfold resolve_by_priority, read_failed, no_content.
  assert (Hu : file_unreadable (file req) = true -> file_yields (file req) = false).
  { destruct (file req) as [f|]; [|discriminate]. cbn. now destruct (read f). }
  destruct (text_given (text req)), (file_unreadable (file req)),
    (file_yields (file req)), (present (image req));
    cbn [negb andb]; split; split; intros H;
    try reflexivity; try discriminate H;
    try (specialize (Hu eq_refl); discriminate Hu);
    try (exfalso; vm_compute in H; discriminate H).
Qed.

Lemma X10_witness :
  no_space_lowering lower_ascii_only /\
  summarize lower_ascii_only
    {| tone := lit "neutral"; length := lit "short"; language := lit "en";
       bullets := false; text := Some [SPACE];
       file := Some {| filename := Some (lit "a.txt"); read := None |};
       image := Some (upload "cat.png" []);
       authorization := None; x_api_key := None |}
  = Raise (HTTPException 400 DETAIL_UNREADABLE) /\
  summarize lower_ascii_only default_request
  = Raise (HTTPException 400 DETAIL_NO_INPUT).
Proof.
  split; [exact lower_ascii_only_no_space|]. split.
  - apply (proj1 (X10_error_details lower_ascii_only_no_space _)). reflexivity.
  - apply (proj2 (X10_error_details lower_ascii_only_no_space _)). reflexivity.
Defined.

(** * The diagnostic endpoint *)

(** X11: the response of [/test] always has the same six keys, in the same
    order, whatever the environment and the database do; the backend entry is
    always "✅ Running" and each environment flag says "✅ Set" exactly when
    its variable is set to a non-empty string. *)
Theorem X11_test_response_shape u n imp :
  let r := test_database u n imp in
  map fst r = [lit "backend"; lit "database"; lit "database_url";
               lit "database_name"; lit "connection_status"; lit "collections"] /\
  field r "backend" = JStr (CHECK_MARK :: lit " Running") /\
  (field r "database_url" = JStr (CHECK_MARK :: lit " Set")
   <-> exists v, u = Some v /\ v <> []) /\
  (field r "database_name" = JStr (CHECK_MARK :: lit " Set")
   <-> exists v, n = Some v /\ v <> []).
Proof.
  cbv zeta.
  assert (Hflag : forall v, env_flag v = CHECK_MARK :: lit " Set"
                            <-> exists s, v = Some s /\ s <> []).
  { intros [[|c s]|]; unfold env_flag; cbn [opt_truthy truthy]; split;
      try discriminate.
    - intros (s & [= <-] & H). congruence.
    - intros _. exists (c :: s). split; [reflexivity | discriminate].
    - reflexivity.
    - intros (s & [=] & _). }
  assert (Hinj : forall a b, JStr a = JStr b <-> a = b).
  { intros a b. split; [now intros [=] | now intros ->]. }
  destruct imp as [|[[[names|]]|]]; cbn [test_database list_collection_names];
    (split; [reflexivity|]); (split; [reflexivity|]);
    (split; [change (field _ "database_url") with (JStr (env_flag u))
            |change (field _ "database_name") with (JStr (env_flag n))]);
    rewrite Hinj; apply Hflag.
Qed.

(** X12: the database entries of [/test] agree with each other: the
    connection status is "Connected" exactly when the database is there and
    lists its collections, and exactly then the database entry is
    "✅ Available"; the collections entry holds the first ten names listed,
    never more, and is empty when nothing was listed. *)
Theorem X12_test_database_status u n imp :
  let r := test_database u n imp in
  (field r "connection_status" = JStr (lit "Connected")
   <-> exists names, listed imp = Some names) /\
  (field r "database" = JStr (CHECK_MARK :: lit " Available")
   <-> field r "connection_status" = JStr (lit "Connected")) /\
  exists cs,
    field r "collections" = JList cs /\
    (List.length cs <= 10)%nat /\
    cs = match listed imp with
         | Some names => firstn 10 names
         | None => []
         end.
Proof.
  cbv zeta.
  destruct imp as [|[[[names|]]|]]; cbn [test_database listed list_collection_names].
  2: { split; [split; [intros _; now exists names | reflexivity]|].
       split; [split; reflexivity|].
       exists (firstn 10 names). split; [reflexivity|].
       split; [|reflexivity]. rewrite length_firstn. lia. }
  all: split; [split; [intros H; vm_compute in H; discriminate H
                      | intros [? [=]]]|];
    (split; [split; intros H; vm_compute in H; discriminate H|]);
    exists []; split; [reflexivity|]; split; [cbn; lia | reflexivity].
Qed.

(** X13: when the database is there but listing its collections raises, the
    endpoint still answers: the database entry is "⚠️ Available but not
    connected", the connection status stays "N/A" and the collections stay
    empty; a missing module and a [db] that is [None] both leave the
    database entry at "❌ Not Used". *)
Theorem X13_test_database_degraded u n imp :
  let r := test_database u n imp in
  (listed imp = None ->
     field r "connection_status" = JStr (lit "N/A") /\
     field r "collections" = JList []) /\
  (field r "database"
     = JStr (WARNING_SIGN ++ lit " Available but not connected")
   <-> exists db, imp = Imported (Some db) /\ list_collection_names db = None) /\
  (field r "database" = JStr (CROSS_MARK :: lit " Not Used")
   <-> imp = ImportRaises \/ imp = Imported None).
Proof.
  cbv zeta.
  destruct imp as [|[[[names|]]|]]; cbn [test_database listed list_collection_names].
  - split; [intros _; split; reflexivity|]. split.
    + split; [intros H; vm_compute in H; discriminate H | intros (? & [=] & _)].
    + split; [now left | reflexivity].
  - split; [discriminate|]. split.
    + split; [intros H; vm_compute in H; discriminate H|].
      intros (db & [= <-] & H). discriminate H.
    + split; [intros H; vm_compute in H; discriminate H | intros [[=] | [=]]].
  - split; [intros _; split; reflexivity|]. split.
    + split; [intros _; eexists; split; reflexivity | reflexivity].
    + split; [intros H; vm_compute in H; discriminate H | intros [[=] | [=]]].
  - split; [intros _; split; reflexivity|]. split.
    + split; [intros H; vm_compute in H; discriminate H | intros (? & [=] & _)].
    + split; [now right | reflexivity].
Qed.

Lemma X11_witness :
  field (test_database (Some (lit "mongodb://h")) (Some []) silent_db)
    "database_url" = JStr (CHECK_MARK :: lit " Set") /\
  field (test_database (Some (lit "mongodb://h")) (Some []) silent_db)
    "database_name" <> JStr (CHECK_MARK :: lit " Set").
Proof.
  destruct (X11_test_response_shape (Some (lit "mongodb://h")) (Some []) silent_db)
    as (_ & _ & Hu & Hn).
  split.
  - apply Hu. eexists. split; [reflexivity | discriminate].
  - intros H. apply Hn in H as (v & [= <-] & Hv). now apply Hv.
Defined.

Lemma X12_witness :
  field (test_database None None answering_db) "connection_status"
  = JStr (lit "Connected") /\
  field (test_database None None answering_db) "collections"
  = JList (firstn 10 twelve_names).
Proof.
  destruct (X12_test_database_status None None answering_db)
    as (Hc & _ & cs & Hcs & _ & ->).
  split; [apply Hc; now exists twelve_names | exact Hcs].
Defined.

Lemma X13_witness :
  field (test_database None None silent_db) "connection_status"
  = JStr (lit "N/A") /\
  field (test_database None None silent_db) "database"
  = JStr (WARNING_SIGN ++ lit " Available but not connected").
Proof.
  destruct (X13_test_database_degraded None None silent_db) as (Hn & Hw & _).
  split; [exact (proj1 (Hn eq_refl))|].
  apply Hw. eexists. split; reflexivity.
Defined.

(** * Sources that are not consulted, and caps that nest *)

Lemma summarize_locals_same_content ul req req' :
  authorization req' = authorization req -> x_api_key req' = x_api_key req ->
  tone req' = tone req -> length req' = length req ->
  language req' = language req -> bullets req' = bullets req ->
  resolve_content (text req') (file req') (image req')
  = resolve_content (text req) (file req) (image req) ->
  summarize_locals ul req' = summarize_locals ul req.
Proof.
  intros Ha Hx Ht Hn Hg Hb Hr. unfold summarize_locals.
  now rewrite Ha, Hx, Ht, Hn, Hg, Hb, Hr.
Qed.

(** X14: a source that has priority hides the ones after it. When the text,
    trimmed, is not empty, the response is the same whatever file and image
    come with it, even a file that cannot be read; when the text gives
    nothing and the file decodes to a non-empty string, the response is the
    same whatever the image is. *)
Theorem X14_later_sources_ignored ul req :
  (text_given (text req) = true ->
   forall f i, summarize ul (with_uploads req f i) = summarize ul req) /\
  (text_given (text req) = false -> file_yields (file req) = true ->
   forall i, summarize ul (with_uploads req (file req) i) = summarize ul req).
Proof.
  split.
  - intros Ht f i. unfold summarize.
    rewrite (@summarize_locals_same_content ul req (with_uploads req f i));
      try reflexivity.
    cbn [with_uploads text file image]. now rewrite !resolve_text.
  - intros Ht Hy i. unfold summarize.
    rewrite (@summarize_locals_same_content ul req (with_uploads req (file req) i));
      try reflexivity.
    cbn [with_uploads text file image].
    destruct (file req) as [f|]; [|discriminate Hy]. cbn [file_yields] in Hy.
    destruct (read f) as [raw|] eqn:Hr; [|discriminate Hy].
    now rewrite !(@resolve_file _ _ _ _ Ht Hr Hy).
Qed.

Lemma X14_witness :
  summarize lower_ascii_only
    (with_uploads hello_request
       (Some {| filename := Some (lit "a.txt"); read := None |})
       (Some (upload "cat.png" [])))
  = summarize lower_ascii_only hello_request /\
  summarize lower_ascii_only
    (with_uploads file_request (file file_request) (Some (upload "cat.png" [])))
  = summarize lower_ascii_only file_request.
Proof.
  split.
  - exact (proj1 (X14_later_sources_ignored lower_ascii_only hello_request)
             eq_refl _ _).
  - exact (proj2 (X14_later_sources_ignored lower_ascii_only file_request)
             eq_refl eq_refl _).
Defined.

Lemma firstn_firstn_app (n m : nat) (b : pystr) x :
  (n <= m)%nat -> (m <= List.length b)%nat ->
  firstn n (firstn m b ++ x) = firstn n b.
Proof.
  intros Hnm Hm. rewrite firstn_app, length_firstn.
  replace (n - Nat.min m (List.length b))%nat with 0%nat by lia.
  rewrite firstn_firstn, firstn_O, app_nil_r. f_equal. lia.
Qed.

Lemma truncate_prefix b c c' :
  (0 < c)%Z -> (c <= c')%Z ->
  firstn (Z.to_nat (c - 1)) (truncate b c)
  = firstn (Z.to_nat (c - 1)) (truncate b c').
Proof.
  intros Hc Hcc'.
  assert (Hpre : forall k, (0 < k)%Z -> (c <= k)%Z ->
            firstn (Z.to_nat (c - 1)) (truncate b k) = firstn (Z.to_nat (c - 1)) b).
  { intros k Hk Hck. destruct (Z_le_gt_dec (len b) k) as [H | H].
    - now rewrite truncate_short.
    - destruct (truncate_long b Hk H) as [-> _].
      apply firstn_firstn_app; unfold len in H; lia. }
  rewrite (Hpre c), (Hpre c'); (reflexivity || lia).
Qed.

(** X15: the caps nest. For two requests that differ in the length option
    only, the truncated text under the smaller cap and the one under the
    larger cap start with the same [cap - 1] characters, [cap] being the
    smaller one; and a truncated text is never longer than the
    whitespace-normalized text it was cut from. *)
Theorem X15_caps_nest ul req n' l l' :
  summarize_locals ul req = Return l ->
  summarize_locals ul (with_options req (tone req) n' (language req)) = Return l' ->
  (cap l <= cap l')%Z ->
  firstn (Z.to_nat (cap l - 1)) (truncated l)
  = firstn (Z.to_nat (cap l - 1)) (truncated l') /\
  (len (truncated l) <= len (base l))%Z.
Proof.
  intros Hl Hl' Hc.
  apply summarize_locals_inv in Hl as H. apply summarize_locals_inv in Hl' as H'.
  pose proof (cap_positive H) as Hpos.
  assert (Hb : base l' = base l).
  { rewrite (computed_base H), (computed_base H').
    pose proof (computed_content H) as E. pose proof (computed_content H') as E'.
    cbn [with_options text file image] in E'. rewrite E in E'.
    now injection E' as -> _. }
  split.
  - rewrite (computed_truncated H), (computed_truncated H'), Hb.
    now apply truncate_prefix.
  - rewrite (computed_truncated H).
    destruct (Z_le_gt_dec (len (base l)) (cap l)) as [Hle | Hgt].
    + rewrite truncate_short by assumption. lia.
    + destruct (truncate_long (base l) Hpos Hgt) as [_ ->]. lia.
Qed.

Lemma X15_witness :
  exists l l',
    summarize_locals lower_ascii_only (long_request false) = Return l /\
    summarize_locals lower_ascii_only
      (with_options (long_request false) (tone (long_request false))
         (lit "medium") (language (long_request false))) = Return l' /\
    cap l = 160%Z /\ cap l' = 320%Z /\
    firstn 159 (truncated l) = firstn 159 (truncated l').
Proof.
  eexists. eexists. split; [vm_compute; reflexivity|].
  split; [vm_compute; reflexivity|]. split; [reflexivity|].
  split; [reflexivity|].
  match goal with
  | |- firstn _ (truncated ?l) = firstn _ (truncated ?l') =>
      refine (proj1 (@X15_caps_nest lower_ascii_only (long_request false)
                       (lit "medium") l l' eq_refl eq_refl _))
  end.
  vm_compute. discriminate.
Defined.

(** * The decoder *)

Lemma land_shiftl_low a k b : b < 2 ^ k -> N.land (N.shiftl a k) b = 0.
Proof.
  intros Hb. apply N.bits_inj. intros n. rewrite N.land_spec, N.bits_0.
  destruct (N.lt_ge_cases n k) as [H | H].
  - now rewrite N.shiftl_spec_low.
  - rewrite <- (N.mod_small b (2 ^ k)) by assumption.
    rewrite N.mod_pow2_bits_high by assumption. apply andb_false_r.
Qed.

Lemma lor_shiftl_low a k b : b < 2 ^ k -> N.lor (N.shiftl a k) b = a * 2 ^ k + b.
Proof.
  intros Hb. pose proof (@land_shiftl_low a k b Hb) as H.
  rewrite <- N.lxor_lor, <- N.add_nocarry_lxor, N.shiftl_mul_pow2 by assumption.
  reflexivity.
Qed.

Lemma low6_mod c : low6 c = c mod 64.
Proof. unfold low6. change 0x3F with (N.ones 6). now rewrite N.land_ones. Qed.

Lemma land_mod_31 c : N.land c 0x1F = c mod 32.
Proof. change 0x1F with (N.ones 5). now rewrite N.land_ones. Qed.
Lemma land_mod_15 c : N.land c 0x0F = c mod 16.
Proof. change 0x0F with (N.ones 4). now rewrite N.land_ones. Qed.
Lemma land_mod_7 c : N.land c 0x07 = c mod 8.
Proof. change 0x07 with (N.ones 3). now rewrite N.land_ones. Qed.

Lemma is_cont_range c : is_cont c = true -> c mod 64 = c - 0x80 /\ 0x80 <= c < 0xC0.
Proof.
  unfold is_cont. intros H. apply andb_prop in H as [H1 H2].
  apply N.leb_le in H1. apply N.ltb_lt in H2.
  pose proof (N.div_mod c 64 ltac:(discriminate)) as Hd.
  pose proof (N.mod_lt c 64 ltac:(discriminate)) as Hm.
  generalize dependent (c / 64). generalize dependent (c mod 64). intros. lia.
Qed.

Ltac bool_hyps :=
  repeat match goal with
  | H : (_ <? _) = true |- _ => apply N.ltb_lt in H
  | H : (_ <? _) = false |- _ => apply N.ltb_ge in H
  | H : (_ =? _) = true |- _ => apply N.eqb_eq in H
  | H : (_ =? _) = false |- _ => apply N.eqb_neq in H
  | H : negb _ = false |- _ => apply negb_false_iff in H
  | H : negb _ = true |- _ => apply negb_true_iff in H
  | H : _ || _ = false |- _ => apply orb_false_elim in H; destruct H
  | H : is_cont _ = true |- _ => apply is_cont_range in H; destruct H
  | H : (if ?c then _ else _) = false |- _ => destruct c eqn:?
  end.

Ltac scalar_value :=
  bool_hyps;
  rewrite ?low6_mod, ?land_mod_31, ?land_mod_15, ?land_mod_7;
  repeat match goal with
  | |- context [?c mod ?m] =>
      lazymatch goal with
      | _ : c = m * (c / m) + c mod m |- _ => fail
      | _ => pose proof (N.div_mod c m ltac:(discriminate));
             pose proof (N.mod_lt c m ltac:(discriminate));
             generalize dependent (c / m); generalize dependent (c mod m); intros
      end
  end.

Ltac lor_to_add :=
  repeat match goal with
  | |- context [N.lor (N.shiftl ?a ?k) ?b] =>
      lazymatch b with
      | context [N.lor] => fail
      | _ => rewrite (@lor_shiftl_low a k b)
               by (change (2 ^ 6) with 64; change (2 ^ 12) with 4096;
                   change (2 ^ 18) with 262144; lia)
      end
  end;
  change (2 ^ 6) with 64; change (2 ^ 12) with 4096;
  change (2 ^ 18) with 262144.

Lemma is_scalar_iff c :
  is_scalar c = true <-> c < 0xD800 \/ (0xDFFF < c /\ c < 0x110000).
Proof.
  unfold is_scalar. rewrite orb_true_iff, andb_true_iff, !N.ltb_lt. tauto.
Qed.

Lemma utf8_decode_sound n :
  forall raw, (List.length raw <= n)%nat -> decode_ok raw (utf8_decode_ignore raw).
Proof.
  induction n as [|n IH]; intros raw Hn.
  - destruct raw; [split; [constructor | auto] | cbn in Hn; lia].
  - destruct raw as [|b0 r1]; [split; [constructor | auto]|].
    cbn [utf8_decode_ignore].
    repeat match goal with
    | |- decode_ok _ (if ?c then _ else _) => destruct c eqn:?
    | |- decode_ok _ (match ?r with [] => _ | _ :: _ => _ end) => destruct r
    end.
    all: try (split; [constructor | cbn [List.length]; lia]).
    all: try match goal with
      | |- decode_ok _ (utf8_decode_ignore ?r) =>
          destruct (IH r ltac:(cbn [List.length] in *; lia)) as [H1 H2];
          split; [exact H1 | cbn [List.length] in *; lia]
      end.
    all: match goal with
      | |- decode_ok _ (?c :: utf8_decode_ignore ?r) =>
          destruct (IH r ltac:(cbn [List.length] in *; lia)) as [H1 H2];
          split; [constructor; [|exact H1] | cbn [List.length] in *; lia]
      end.
    all: apply is_scalar_iff; scalar_value; lor_to_add; lia.
Qed.

Lemma to_N_byte_of n : n < 256 -> Byte.to_N (byte_of n) = n.
Proof.
  intros H. unfold byte_of. destruct (Byte.of_N n) as [b|] eqn:E.
  - now apply Byte.to_of_N.
  - apply Byte.of_N_None_iff in E. lia.
Qed.

Lemma lor_80 x : x < 64 -> N.lor 0x80 x = 128 + x.
Proof. intros H. change 0x80 with (N.shiftl 2 6). rewrite lor_shiftl_low; [reflexivity | exact H]. Qed.
Lemma lor_C0 x : x < 64 -> N.lor 0xC0 x = 192 + x.
Proof. intros H. change 0xC0 with (N.shiftl 3 6). rewrite lor_shiftl_low; [reflexivity | exact H]. Qed.
Lemma lor_E0 x : x < 16 -> N.lor 0xE0 x = 224 + x.
Proof. intros H. change 0xE0 with (N.shiftl 14 4). rewrite lor_shiftl_low; [reflexivity | exact H]. Qed.
Lemma lor_F0 x : x < 8 -> N.lor 0xF0 x = 240 + x.
Proof. intros H. change 0xF0 with (N.shiftl 30 3). rewrite lor_shiftl_low; [reflexivity | exact H]. Qed.

Lemma shiftr_6 c : N.shiftr c 6 = c / 64.
Proof. now rewrite N.shiftr_div_pow2. Qed.
Lemma shiftr_12 c : N.shiftr c 12 = c / 4096.
Proof. now rewrite N.shiftr_div_pow2. Qed.
Lemma shiftr_18 c : N.shiftr c 18 = c / 262144.
Proof. now rewrite N.shiftr_div_pow2. Qed.


Lemma is_cont_low x : x < 64 -> is_cont (128 + x) = true.
Proof.
  intros H. unfold is_cont. apply andb_true_intro.
  split; [apply N.leb_le | apply N.ltb_lt]; lia.
Qed.

Lemma low6_cont x : x < 64 -> low6 (128 + x) = x.
Proof.
  intros H. rewrite low6_mod.
  symmetry. apply (N.mod_unique (128 + x) 64 2 x); [exact H | lia].
Qed.

Lemma ltb_false_ge a b : b <= a -> (a <? b) = false.
Proof. intros H. now apply N.ltb_ge. Qed.

Lemma ltb_true_lt a b : a < b -> (a <? b) = true.
Proof. intros H. now apply N.ltb_lt. Qed.

(** Well-formed sequences of two, three and four bytes are accepted. *)
Lemma utf8_decode_2 b0 b1 rest :
  194 <= Byte.to_N b0 < 224 -> is_cont (Byte.to_N b1) = true ->
  utf8_decode_ignore (b0 :: b1 :: rest)
  = N.lor (N.shiftl (N.land (Byte.to_N b0) 0x1F) 6) (low6 (Byte.to_N b1))
    :: utf8_decode_ignore rest.
Proof.
  intros H0 H1. cbn [utf8_decode_ignore].
  rewrite (@ltb_false_ge _ 128), (@ltb_false_ge _ 194), (@ltb_true_lt _ 224), H1
    by lia.
  reflexivity.
Qed.

Lemma utf8_decode_3 b0 b1 b2 rest :
  224 <= Byte.to_N b0 < 240 -> is_cont (Byte.to_N b1) = true ->
  (if Byte.to_N b1 <? 0xA0 then Byte.to_N b0 =? 0xE0 else Byte.to_N b0 =? 0xED)
  = false ->
  is_cont (Byte.to_N b2) = true ->
  utf8_decode_ignore (b0 :: b1 :: b2 :: rest)
  = N.lor (N.shiftl (N.land (Byte.to_N b0) 0x0F) 12)
      (N.lor (N.shiftl (low6 (Byte.to_N b1)) 6) (low6 (Byte.to_N b2)))
    :: utf8_decode_ignore rest.
Proof.
  intros H0 H1 Hx H2. cbn [utf8_decode_ignore].
  rewrite (@ltb_false_ge _ 128), (@ltb_false_ge _ 194), (@ltb_false_ge _ 224),
    (@ltb_true_lt _ 240), H1, Hx, H2 by lia.
  reflexivity.
Qed.

Lemma utf8_decode_4 b0 b1 b2 b3 rest :
  240 <= Byte.to_N b0 < 245 -> is_cont (Byte.to_N b1) = true ->
  (if Byte.to_N b1 <? 0x90 then Byte.to_N b0 =? 0xF0 else Byte.to_N b0 =? 0xF4)
  = false ->
  is_cont (Byte.to_N b2) = true -> is_cont (Byte.to_N b3) = true ->
  utf8_decode_ignore (b0 :: b1 :: b2 :: b3 :: rest)
  = N.lor (N.shiftl (N.land (Byte.to_N b0) 0x07) 18)
      (N.lor (N.shiftl (low6 (Byte.to_N b1)) 12)
         (N.lor (N.shiftl (low6 (Byte.to_N b2)) 6) (low6 (Byte.to_N b3))))
    :: utf8_decode_ignore rest.
Proof.
  intros H0 H1 Hx H2 H3. cbn [utf8_decode_ignore].
  rewrite (@ltb_false_ge _ 128), (@ltb_false_ge _ 194), (@ltb_false_ge _ 224),
    (@ltb_false_ge _ 240), (@ltb_true_lt _ 245), H1, Hx, H2, H3 by lia.
  reflexivity.
Qed.

Ltac split_digits c :=
  let d1 := fresh "d" in let m0 := fresh "m" in
  pose proof (N.div_mod c 64 ltac:(discriminate));
  pose proof (N.mod_lt c 64 ltac:(discriminate));
  set (m0 := c mod 64) in *; set (d1 := c / 64) in *;
  clearbody m0 d1.

Lemma utf8_decode_encode_char c rest :
  is_scalar c = true ->
  utf8_decode_ignore (utf8_encode_char c ++ rest) = c :: utf8_decode_ignore rest.
Proof.
  intros Hs. apply is_scalar_iff in Hs. unfold utf8_encode_char.
  rewrite !shiftr_6, !shiftr_12, !shiftr_18.
  change 0x3F with (N.ones 6). rewrite !N.land_ones. change (2 ^ 6) with 64.
  replace (c / 4096) with (c / 64 / 64) by (now rewrite N.Div0.div_div).
  replace (c / 262144) with (c / 64 / 64 / 64) by (now rewrite !N.Div0.div_div).
  destruct (c <? 0x80) eqn:E1; [|destruct (c <? 0x800) eqn:E2;
    [|destruct (c <? 0x10000) eqn:E3]]; bool_hyps; cbn [app].
  - cbn [utf8_decode_ignore]. rewrite to_N_byte_of by lia.
    apply N.ltb_lt in E1. now rewrite E1.
  - split_digits c.
    assert (B0 : Byte.to_N (byte_of (N.lor 192 d)) = 192 + d)
      by (rewrite lor_C0, to_N_byte_of; lia).
    assert (B1 : Byte.to_N (byte_of (N.lor 128 m)) = 128 + m)
      by (rewrite lor_80, to_N_byte_of; lia).
    rewrite utf8_decode_2; rewrite ?B0, ?B1;
      [|lia | apply is_cont_low; lia].
    f_equal. rewrite low6_cont, land_mod_31 by lia.
    rewrite <- (N.mod_unique (192 + d) 32 6 d) by lia.
    lor_to_add. lia.
  - split_digits c. split_digits d.
    assert (B0 : Byte.to_N (byte_of (N.lor 224 d0)) = 224 + d0)
      by (rewrite lor_E0, to_N_byte_of; lia).
    assert (B1 : Byte.to_N (byte_of (N.lor 128 m0)) = 128 + m0)
      by (rewrite lor_80, to_N_byte_of; lia).
    assert (B2 : Byte.to_N (byte_of (N.lor 128 m)) = 128 + m)
      by (rewrite lor_80, to_N_byte_of; lia).
    rewrite utf8_decode_3; rewrite ?B0, ?B1, ?B2;
      [|lia | apply is_cont_low; lia
       |destruct (128 + m0 <? 160) eqn:E; apply N.eqb_neq; bool_hyps; lia
       |apply is_cont_low; lia].
    f_equal. rewrite !low6_cont, land_mod_15 by lia.
    rewrite <- (N.mod_unique (224 + d0) 16 14 d0) by lia.
    lor_to_add. lia.
  - split_digits c. split_digits d. split_digits d0.
    assert (B0 : Byte.to_N (byte_of (N.lor 240 d1)) = 240 + d1)
      by (rewrite lor_F0, to_N_byte_of; lia).
    assert (B1 : Byte.to_N (byte_of (N.lor 128 m1)) = 128 + m1)
      by (rewrite lor_80, to_N_byte_of; lia).
    assert (B2 : Byte.to_N (byte_of (N.lor 128 m0)) = 128 + m0)
      by (rewrite lor_80, to_N_byte_of; lia).
    assert (B3 : Byte.to_N (byte_of (N.lor 128 m)) = 128 + m)
      by (rewrite lor_80, to_N_byte_of; lia).
    rewrite utf8_decode_4; rewrite ?B0, ?B1, ?B2, ?B3;
      [|lia | apply is_cont_low; lia
       |destruct (128 + m1 <? 144) eqn:E; apply N.eqb_neq; bool_hyps; lia
       |apply is_cont_low; lia | apply is_cont_low; lia].
    f_equal. rewrite !low6_cont, land_mod_7 by lia.
    rewrite <- (N.mod_unique (240 + d1) 8 30 d1) by lia.
    lor_to_add. lia.
Qed.

Lemma utf8_decode_encode s raw :
  utf8_encode s = Some raw -> utf8_decode_ignore raw = s.
Proof.
  revert raw. induction s as [|c s IH]; intros raw; cbn [utf8_encode].
  - now intros [= <-].
  - destruct (is_scalar c) eqn:Ec; [|discriminate].
    destruct (utf8_encode s) as [r|]; [|discriminate].
    intros [= <-]. rewrite utf8_decode_encode_char by assumption.
    now rewrite (IH r).
Qed.

Lemma utf8_decode_ascii raw :
  Forall (fun b => Byte.to_N b < 0x80) raw ->
  utf8_decode_ignore raw = map Byte.to_N raw.
Proof.
  induction 1 as [|b raw Hb _ IH]; [reflexivity|].
  cbn [utf8_decode_ignore map]. apply N.ltb_lt in Hb. now rewrite Hb, IH.
Qed.

(** X16: what lenient decoding can give. Whatever the bytes of the file, the
    decoded content holds only Unicode scalar values (no surrogate, nothing
    above U+10FFFF) and has at most as many characters as the file has
    bytes; bytes below 0x80 decode to themselves. *)
Theorem X16_decoded_content raw :
  Forall (fun c => is_scalar c = true) (utf8_decode_ignore raw) /\
  (List.length (utf8_decode_ignore raw) <= List.length raw)%nat /\
  (Forall (fun b => Byte.to_N b < 0x80) raw ->
   utf8_decode_ignore raw = map Byte.to_N raw).
Proof.
  destruct (@utf8_decode_sound (List.length raw) raw (le_n _)) as [H1 H2].
  split; [exact H1|]. split; [exact H2 | apply utf8_decode_ascii].
Qed.

Lemma X16_witness :
  utf8_decode_ignore [x48; x69; x21]%byte = lit "Hi!" /\
  (List.length (utf8_decode_ignore [xed; xa0; x80; xf4; x90; x80; x80]%byte)
   <= 7)%nat.
Proof.
  split.
  - refine (proj2 (proj2 (X16_decoded_content [x48; x69; x21]%byte)) _).
    repeat constructor.
  - exact (proj1 (proj2 (X16_decoded_content
                           [xed; xa0; x80; xf4; x90; x80; x80]%byte))).
Defined.

(** X17: decoding undoes UTF-8 encoding: the bytes that encode a string
    decode to that string, every character kept; so a file that holds the
    encoding of a non-empty string, in a request without text, resolves to
    that string as the content. *)
Theorem X17_decode_encode s raw :
  utf8_encode s = Some raw ->
  utf8_decode_ignore raw = s /\
  forall text f image,
    text_given text = false -> read f = Some raw -> s <> [] ->
    resolve_content text (Some f) image
    = Return (s, opt_or (filename f) (lit "uploaded file")).
Proof.
  intros H. apply utf8_decode_encode in H. split; [exact H|].
  intros text f image Ht Hr Hs.
  rewrite (@resolve_file _ _ _ image Ht Hr); rewrite H;
    [reflexivity | now apply truthy_true].
Qed.

Lemma X17_witness :
  utf8_encode [0x48; 0xE9; ELLIPSIS; 0x1F600]
  = Some [x48; xc3; xa9; xe2; x80; xa6; xf0; x9f; x98; x80]%byte /\
  utf8_decode_ignore [x48; xc3; xa9; xe2; x80; xa6; xf0; x9f; x98; x80]%byte
  = [0x48; 0xE9; ELLIPSIS; 0x1F600].
Proof.
  split; [reflexivity|].
  exact (proj1 (@X17_decode_encode [0x48; 0xE9; ELLIPSIS; 0x1F600] _ eq_refl)).
Defined.

(** * The response dict *)

Lemma pystr_eqb_neq a b : a <> b -> pystr_eqb a b = false.
Proof.
  intros H. destruct (pystr_eqb a b) eqn:E; [|reflexivity].
  apply pystr_eqb_eq in E. contradiction.
Qed.

Lemma pystr_eqb_same a : pystr_eqb a a = true.
Proof. now apply pystr_eqb_eq. Qed.

(** X18: assignment and lookup on the response dict of [/test]. After
    [d[k] = v], looking [k] up gives [v] and every other key gives what it
    gave before; assigning to a key the dict already has keeps the keys and
    their order, which is why the updates of lines 55-61 never add an
    entry. *)
Theorem X18_dict_set_get {V} (d : list (pystr * V)) k v :
  (forall default, dict_get (dict_set d k v) k default = v) /\
  (forall k' default,
     k' <> k -> dict_get (dict_set d k v) k' default = dict_get d k' default) /\
  (In k (map fst d) -> map fst (dict_set d k v) = map fst d).
Proof.
  split; [|split].
  - intros default. induction d as [|[k0 v0] d IH]; cbn [dict_set dict_get].
    + now rewrite pystr_eqb_same.
    + destruct (pystr_eqb k0 k) eqn:E; cbn [dict_get]; rewrite E; auto.
  - intros k' default Hk. induction d as [|[k0 v0] d IH]; cbn [dict_set dict_get].
    + rewrite pystr_eqb_neq; [reflexivity | congruence].
    + destruct (pystr_eqb k0 k) eqn:E; cbn [dict_get].
      * apply pystr_eqb_eq in E. subst k0.
        rewrite pystr_eqb_neq; [reflexivity | congruence].
      * destruct (pystr_eqb k0 k'); [reflexivity | exact IH].
  - induction d as [|[k0 v0] d IH]; cbn [dict_set map fst]; [intros []|].
    intros Hin. destruct (pystr_eqb k0 k) eqn:E; cbn [map fst]; [reflexivity|].
    f_equal. apply IH. destruct Hin as [-> | Hin]; [|exact Hin].
    rewrite pystr_eqb_same in E. discriminate E.
Qed.

Lemma X18_witness :
  dict_get (dict_set (test_database None None ImportRaises)
              (lit "database") (JStr (lit "x")))
    (lit "backend") (JStr [])
  = JStr (CHECK_MARK :: lit " Running") /\
  map fst (dict_set (test_database None None ImportRaises)
             (lit "database") (JStr (lit "x")))
  = map fst (test_database None None ImportRaises).
Proof.
  destruct (X18_dict_set_get (test_database None None ImportRaises)
              (lit "database") (JStr (lit "x"))) as (_ & Hother & Hkeys).
  split.
  - rewrite Hother; [reflexivity | discriminate].
  - apply Hkeys. cbn. tauto.
Defined.
